(** * MemoryDB client of VectorDBBench: a shallow embedding and its properties

    Source: [vectordb_bench/backend/clients/memorydb/memorydb.py].

    Python integers are [Z] ([//] and [%] are [Z.div] and [Z.modulo], which
    round towards minus infinity as Python's do), lists are [list], strings
    are [string], a dictionary is an association list in insertion order.
    A raised exception is the [Raise] branch of [result]; code that also
    changes a connection or a server runs in the state-and-error monad [io]. *)

From Stdlib Require Import ZArith List String Ascii Bool Lia Permutation.
From Stdlib Require Import DecimalString.
Import ListNotations.

Set Implicit Arguments.

(** ** Python values and exceptions *)

Inductive exn : Type :=
| ZeroDivisionError
| UnboundLocalError (name : string)
| IndexError
| TypeError
| AssertionError
| ValueError
| ResponseError (msg : string)
| ConnectionError (msg : string).

Inductive result (A : Type) : Type :=
| Ok (a : A)
| Raise (e : exn).

Arguments Ok {A} a.
Arguments Raise {A} e.

Definition bind {A B} (r : result A) (k : A -> result B) : result B :=
  match r with
  | Ok a => k a
  | Raise e => Raise e
  end.

Notation "x <- r ;; k" := (bind r (fun x => k))
  (at level 61, r at next level, right associativity).

Definition is_ok {A} (r : result A) : bool :=
  match r with Ok _ => true | Raise _ => false end.

(** State and exceptions: what a call does to the object it talks to. *)
Definition io (S A : Type) : Type := S -> result A * S.

Definition io_ret {S A} (a : A) : io S A := fun s => (Ok a, s).
Definition io_raise {S A} (e : exn) : io S A := fun s => (Raise e, s).
Definition io_lift {S A} (r : result A) : io S A := fun s => (r, s).
Definition io_bind {S A B} (m : io S A) (k : A -> io S B) : io S B :=
  fun s =>
    match m s with
    | (Ok a, s') => k a s'
    | (Raise e, s') => (Raise e, s')
    end.

Notation "x <~ m ;; k" := (io_bind m (fun x => k))
  (at level 61, m at next level, right associativity).

(** [len(l)] *)
Definition len {A} (l : list A) : Z := Z.of_nat (List.length l).

(** [range(n)]: empty when [n <= 0]. *)
Definition range (n : Z) : list Z := map Z.of_nat (seq 0 (Z.to_nat n)).

(** [a // b] and [a % b] *)
Definition floordiv (a b : Z) : result Z :=
  if (b =? 0)%Z then Raise ZeroDivisionError else Ok (a / b)%Z.

Definition pymod (a b : Z) : result Z :=
  if (b =? 0)%Z then Raise ZeroDivisionError else Ok (a mod b)%Z.

(** [l[lo:hi]] for [0 <= lo]: the bounds are clipped to the list as Python
    clips them, and [hi <= lo] gives the empty list. *)
Definition slice {A} (l : list A) (lo hi : Z) : list A :=
  firstn (Z.to_nat (hi - lo)) (skipn (Z.to_nat lo) l).

(** [l[i]] for [0 <= i]: [IndexError] out of range. *)
Definition getitem {A} (l : list A) (i : Z) : result A :=
  match nth_error l (Z.to_nat i) with
  | Some a => Ok a
  | None => Raise IndexError
  end.

Definition sumZ (l : list Z) : Z := fold_right Z.add 0%Z l.

(** A loop or comprehension whose body may raise: the first exception ends it. *)
Fixpoint for_each {X Y} (f : X -> result Y) (l : list X) : result (list Y) :=
  match l with
  | [] => Ok []
  | x :: rest => y <- f x ;; ys <- for_each f rest ;; Ok (y :: ys)
  end.

(** [str(z)] and the [{z}] of an f-string, for an integer. *)
Definition str (z : Z) : string := NilZero.string_of_int (Z.to_int z).

(** [s[n:]] on a string. *)
Fixpoint str_drop (n : nat) (s : string) : string :=
  match n, s with
  | O, _ => s
  | S _, EmptyString => EmptyString
  | S n', String _ s' => str_drop n' s'
  end.

Inductive pyval : Type :=
| PyNone
| PyInt (z : Z)
| PyStr (s : string).

(** The truth value Python's [if v:] takes. *)
Definition truthy (v : pyval) : bool :=
  match v with
  | PyNone => false
  | PyInt z => negb (z =? 0)%Z
  | PyStr s => negb (s =? "")%string
  end.

(** The [{v}] of an f-string. *)
Definition format (v : pyval) : string :=
  match v with
  | PyNone => "None"
  | PyInt z => str z
  | PyStr s => s
  end.

(** Dictionaries with string keys, in insertion order. *)
Definition dict (V : Type) : Type := list (string * V).

Fixpoint dict_get {V} (d : dict V) (k : string) : option V :=
  match d with
  | [] => None
  | (k', v) :: rest => if (k' =? k)%string then Some v else dict_get rest k
  end.

(** [d[k] = v] *)
Fixpoint dict_set {V} (d : dict V) (k : string) (v : V) : dict V :=
  match d with
  | [] => [(k, v)]
  | (k', v') :: rest =>
      if (k' =? k)%string then (k, v) :: rest else (k', v') :: dict_set rest k v
  end.

Definition dict_has {V} (d : dict V) (k : string) : bool :=
  match dict_get d k with Some _ => true | None => false end.

(** ** Configuration and the client object *)

Definition INDEX_NAME : string := "index".

(** [db_config]; [cmd] is the truth value of [db_config["cmd"]], "Cluster Mode
    Disabled". *)
Record DbConfig : Type := {
  cmd : bool;
  host : string;
  port : Z
}.

(** What [case_config.index_param()] and [case_config.search_param()] return:
    [MemoryDBIndexConfig] is declared outside this file, so the two
    dictionaries are taken as they are read here, key by key. *)
Record IndexParam : Type := {
  metric : pyval;
  m : pyval;
  ef_construction : pyval
}.

Record SearchParam : Type := {
  ef_runtime : pyval
}.

Record MemoryDBIndexConfig : Type := {
  cfg_insert_batch_size : Z;
  cfg_ingestion_thread_count : Z;
  cfg_no_content : bool;
  index_param : IndexParam;
  search_param : SearchParam
}.

(** [redis.connection.ConnectionPool(host=..., port=..., db=0)] *)
Record ConnectionPool : Type := {
  pool_host : string;
  pool_port : Z;
  pool_db : Z
}.

Inductive Topology : Type := Standalone | Sharded.

(** The branch [get_client] takes: [if not self.db_config["cmd"]] is
    "Cluster mode enabled" and builds a [RedisCluster], the other branch a
    [Redis]. *)
Definition topology (config : DbConfig) : Topology :=
  if negb (cmd config) then Sharded else Standalone.

Definition get_client_pool (config : DbConfig) : option ConnectionPool :=
  if negb (cmd config) then None
  else Some {| pool_host := host config; pool_port := port config; pool_db := 0 |}.

Record MemoryDB : Type := {
  db_config : DbConfig;
  case_config : MemoryDBIndexConfig;
  insert_batch_size : Z;
  ingestion_thread_count : Z;
  no_content : bool;
  conn_pool : option ConnectionPool;
  conn : option Topology;
  ef_runtime_str : string
}.

(** The attributes [__init__] sets from its arguments. [conn_pool], [conn]
    and [ef_runtime_str] do not exist on the Python object until [init]
    assigns them; the record has to give them a value, which stands for
    nothing in the source: the client is used through [init] only. *)
Definition new_MemoryDB (config : DbConfig) (db_case_config : MemoryDBIndexConfig)
  : MemoryDB :=
  {| db_config := config;
     case_config := db_case_config;
     insert_batch_size := cfg_insert_batch_size db_case_config;
     ingestion_thread_count := cfg_ingestion_thread_count db_case_config;
     no_content := cfg_no_content db_case_config;
     conn_pool := None;
     conn := None;
     ef_runtime_str := "" |}.

(** What [init] sets before it yields; [self.conn] is kept as the kind of
    client [get_client] builds. *)
Definition init (self : MemoryDB) : MemoryDB :=
  let sp := search_param (case_config self) in
  {| db_config := db_config self;
     case_config := case_config self;
     insert_batch_size := insert_batch_size self;
     ingestion_thread_count := ingestion_thread_count self;
     no_content := no_content self;
     conn_pool := get_client_pool (db_config self);
     conn := Some (topology (db_config self));
     ef_runtime_str :=
       if truthy (ef_runtime sp)
       then ("EF_RUNTIME " ++ format (ef_runtime sp))%string
       else ""%string |}.

(** ** [split_list_into_parts] *)

Section Split.
Context {A : Type}.

(** The list comprehension that gives the sizes. *)
Definition part_sizes (base_size remainder num_parts : Z) : list Z :=
  map (fun i => if (i <? remainder)%Z then (base_size + 1)%Z else base_size)
      (range num_parts).

(** One turn of [for size in sizes]; the state is [(result, index)]. *)
Definition split_step (lst : list A) (st : list (list A) * Z) (size : Z)
  : list (list A) * Z :=
  let '(res, index) := st in
  (res ++ [slice lst index (index + size)], (index + size)%Z).

Definition split_list_into_parts (lst : list A) (num_parts : Z)
  : result (list (list A)) :=
  base_size <- floordiv (len lst) num_parts ;;
  remainder <- pymod (len lst) num_parts ;;
  let sizes := part_sizes base_size remainder num_parts in
  Ok (fst (fold_left (split_step lst) sizes ([], 0%Z))).

(** Where slice [i] starts: after the slices before it. *)
Definition offset (parts : list (list A)) (i : nat) : Z :=
  sumZ (map len (firstn i parts)).

(** The slices the loop cuts, by recursion on the sizes. *)
Fixpoint slices_from (lst : list A) (index : Z) (sizes : list Z)
  : list (list A) :=
  match sizes with
  | [] => []
  | size :: rest =>
      slice lst index (index + size) :: slices_from lst (index + size)%Z rest
  end.
End Split.

(** ** The ingestion workers: [insert_embedding_batch], [insert_embeddings] *)

(** The client [redis.Redis(connection_pool=...)] builds for worker [conn_id]. *)
Record Redis : Type := {
  conn_id : Z;
  connection_pool : option ConnectionPool
}.

Section Ingestion.
(** An embedding as the caller hands it over, and the bytes of
    [np.array(embedding).astype(np.float32).tobytes()]. *)
Variables (embedding vector_bytes : Type).
Variable tobytes : embedding -> vector_bytes.

(** [pipe.hset(name, mapping={"id": ..., "metadata": ..., "vector": ...})] *)
Record hset : Type := {
  hset_name : Z;
  hset_id : string;
  hset_metadata : Z;
  hset_vector : vector_bytes
}.

(** What the server answers when a pipeline sends its buffered commands on
    a connection: [None] when every command was acknowledged, [Some e] when
    [pipe.execute()] raises [e]. *)
Variable execute_reply : Redis -> list hset -> option exn.

(** A pipeline: the buffered commands and the batches acknowledged so far. *)
Record pipeline : Type := {
  command_stack : list hset;
  sent : list (list hset)
}.

Definition pipe_hset (c : hset) : io pipeline unit :=
  fun pipe =>
    (Ok tt, {| command_stack := command_stack pipe ++ [c]; sent := sent pipe |}).

(** [pipe.execute()]: an empty buffer is not sent; the buffer is reset in
    either case. *)
Definition pipe_execute (conn : Redis) : io pipeline unit :=
  fun pipe =>
    match command_stack pipe with
    | [] => (Ok tt, pipe)
    | _ :: _ =>
        match execute_reply conn (command_stack pipe) with
        | None =>
            (Ok tt, {| command_stack := [];
                       sent := sent pipe ++ [command_stack pipe] |})
        | Some e => (Raise e, {| command_stack := []; sent := sent pipe |})
        end
    end.

(** [for i, embedding in enumerate(embeddings)], from index [i] on; [bound]
    is the value the loop variable [i] has so far, [None] while unbound. *)
Fixpoint batch_loop (self : MemoryDB) (conn : Redis) (metadata : list Z)
    (i : Z) (embeddings : list embedding) (bound : option Z)
  : io pipeline (option Z) :=
  match embeddings with
  | [] => io_ret bound
  | embedding :: rest =>
      let embedding := tobytes embedding in
      key <~ io_lift (getitem metadata i) ;;
      _ <~ pipe_hset {| hset_name := key; hset_id := str key;
                        hset_metadata := key; hset_vector := embedding |} ;;
      r <~ io_lift (pymod (i + 1) (insert_batch_size self)) ;;
      _ <~ (if (r =? 0)%Z then pipe_execute conn else io_ret tt) ;;
      batch_loop self conn metadata (i + 1) rest (Some i)
  end.

(** The body of the [try]: the value of [result_len] at its end. *)
Definition batch_body (self : MemoryDB) (conn : Redis)
    (embeddings : list embedding) (metadata : list Z) : io pipeline Z :=
  bound <~ batch_loop self conn metadata 0 embeddings None ;;
  _ <~ pipe_execute conn ;;
  match bound with
  | Some i => io_ret (i + 1)%Z
  | None => io_raise (UnboundLocalError "i")
  end.

(** One worker's run: how the [try] ended, what it put on the result queue,
    and the batches the server acknowledged. *)
Record worker_run : Type := {
  run_conn : Redis;
  outcome : result Z;
  put : Z;
  wrote : list (list hset)
}.

Definition insert_embedding_batch (self : MemoryDB) (conn : Redis)
    (embeddings : list embedding) (metadata : list Z) : worker_run :=
  let '(r, pipe) :=
    batch_body self conn embeddings metadata
               {| command_stack := []; sent := [] |} in
  {| run_conn := conn;
     outcome := r;
     put := match r with Ok result_len => result_len | Raise _ => 0%Z end;
     wrote := sent pipe |}.

Definition raised (w : worker_run) : bool := negb (is_ok (outcome w)).

(** The run of worker [i] on the slices handed out, an absent slice read as
    the empty one. *)
Definition worker_at (self : MemoryDB) (embedding_parts : list (list embedding))
    (metadata_parts : list (list Z)) (i : Z) : worker_run :=
  insert_embedding_batch self
    {| conn_id := i; connection_pool := conn_pool self |}
    (nth (Z.to_nat i) embedding_parts [])
    (nth (Z.to_nat i) metadata_parts []).

(** One turn of [for i in range(thread_count)]: the thread of worker [i],
    run to its end. The workers share nothing but the result queue, so a
    worker's run does not depend on how the threads interleave. *)
Definition spawn (self : MemoryDB) (embedding_parts : list (list embedding))
    (metadata_parts : list (list Z)) (i : Z) : result worker_run :=
  let conn := {| conn_id := i; connection_pool := conn_pool self |} in
  e <- getitem embedding_parts i ;;
  md <- getitem metadata_parts i ;;
  Ok (insert_embedding_batch self conn e md).

Definition run_workers (self : MemoryDB) (embeddings : list embedding)
    (metadata : list Z) : result (list worker_run) :=
  let thread_count := ingestion_thread_count self in
  embedding_parts <- split_list_into_parts embeddings thread_count ;;
  metadata_parts <- split_list_into_parts metadata thread_count ;;
  for_each (spawn self embedding_parts metadata_parts) (range thread_count).

(** [while not result_queue.empty(): result_len += result_queue.get()] *)
Definition drain (result_queue : list Z) (result_len : Z) : Z :=
  fold_left Z.add result_queue result_len.

(** The queue is drained here in the order of the workers; [drain] gives the
    same total for every order in which the threads may have finished
    (lemma [drain_Permutation]). *)
Definition insert_embeddings (self : MemoryDB) (embeddings : list embedding)
    (metadata : list Z) : Z * option exn :=
  match run_workers self embeddings metadata with
  | Ok runs => (drain (map put runs) 0, None)
  | Raise e => (0%Z, Some e)
  end.
End Ingestion.

(** ** The convergence barrier: [wait_until] *)

Section Barrier.
(** The world the predicate looks at (the node and the clock), the
    predicate [condition] applied to its arguments, and [time.sleep]. Both
    are taken to return: an exception raised by either would leave the loop
    at once, and is not part of this model. *)
Variables (world node : Type).
Variable condition : node -> world -> bool * world.
Variable sleep : Z -> world -> world.

Inductive event : Type :=
| Evaluated (answer : bool)
| Slept (interval : Z).

(** [while not condition(args): time.sleep(interval)], with the number of
    turns of the loop bounded by [fuel]: [None] when the loop is still
    running after [fuel] evaluations. *)
Fixpoint wait_until (fuel : nat) (interval : Z) (args : node) (w : world)
  : option (list event * world) :=
  match fuel with
  | O => None
  | S fuel' =>
      let (answer, w1) := condition args w in
      if answer then Some ([Evaluated true], w1)
      else
        match wait_until fuel' interval args (sleep interval w1) with
        | Some (tr, w2) => Some (Evaluated false :: Slept interval :: tr, w2)
        | None => None
        end
  end.

(** The world just before evaluation number [k] (from 0) of a loop that is
    still running, and the answer of that evaluation. *)
Fixpoint world_before (interval : Z) (args : node) (w : world) (k : nat)
  : world :=
  match k with
  | O => w
  | S k' =>
      sleep interval (snd (condition args (world_before interval args w k')))
  end.

Definition answer_at (interval : Z) (args : node) (w : world) (k : nat)
  : bool :=
  fst (condition args (world_before interval args w k)).

(** The trace of [n] failed polls followed by a successful one. *)
Fixpoint polls (interval : Z) (n : nat) : list event :=
  match n with
  | O => [Evaluated true]
  | S n' => Evaluated false :: Slept interval :: polls interval n'
  end.

Definition evaluations (tr : list event) : nat :=
  List.length (filter (fun e => match e with Evaluated _ => true | _ => false end) tr).

Definition sleeps (tr : list event) : list Z :=
  flat_map (fun e => match e with Slept i => [i] | _ => [] end) tr.
End Barrier.

(** ** Index provisioning: [make_index] *)

Inductive field : Type :=
| TagField (name : string)
| NumericField (name : string)
| VectorField (name algorithm : string) (attributes : dict pyval).

Inductive IndexType : Type := HASH | JSON.

Record IndexDefinition : Type := {
  index_type : IndexType
}.

(** The commands [make_index] sends through [conn.ft(INDEX_NAME)]. *)
Inductive command : Type :=
| FT_INFO (index : string)
| FT_CREATE (index : string) (schema : list field) (definition : IndexDefinition).

Definition is_create (c : command) : bool :=
  match c with FT_CREATE _ _ _ => true | FT_INFO _ => false end.

(** The dictionary [vector_parameters] as [make_index] fills it. *)
Definition vector_parameters (vector_dimensions : Z) (index_param : IndexParam)
    (search_param : SearchParam) : dict pyval :=
  let vector_parameters :=
    [("TYPE", PyStr "FLOAT32");
     ("DIM", PyInt vector_dimensions);
     ("DISTANCE_METRIC", metric index_param)]%string in
  let vector_parameters :=
    if truthy (m index_param)
    then dict_set vector_parameters "M" (m index_param)
    else vector_parameters in
  let vector_parameters :=
    if truthy (ef_construction index_param)
    then dict_set vector_parameters "EF_CONSTRUCTION" (ef_construction index_param)
    else vector_parameters in
  if truthy (ef_runtime search_param)
  then dict_set vector_parameters "EF_RUNTIME" (ef_runtime search_param)
  else vector_parameters.

Definition index_schema (vector_dimensions : Z) (self : MemoryDB) : list field :=
  [TagField "id";
   NumericField "metadata";
   VectorField "vector" "HNSW"
     (vector_parameters vector_dimensions
        (index_param (case_config self)) (search_param (case_config self)))].

Section Schema.
(** The store behind the connection: [ft_info] is its answer to the index
    metadata query, which changes nothing; [ft_create] its answer to the
    create command. *)
Variable server : Type.
Variable ft_info : string -> server -> result unit.
Variable ft_create :
  string -> list field -> IndexDefinition -> server -> result unit * server.

(** A connection: the server it talks to and the commands sent over it. *)
Record connection : Type := {
  srv : server;
  issued : list command
}.

Definition info (index : string) : io connection unit :=
  fun c =>
    (ft_info index (srv c),
     {| srv := srv c; issued := issued c ++ [FT_INFO index] |}).

Definition create_index (index : string) (schema : list field)
    (definition : IndexDefinition) : io connection unit :=
  fun c =>
    let (r, s') := ft_create index schema definition (srv c) in
    (r, {| srv := s';
           issued := issued c ++ [FT_CREATE index schema definition] |}).

(** [try: conn.ft(INDEX_NAME).info()  except Exception: ... create_index] *)
Definition make_index (self : MemoryDB) (vector_dimensions : Z)
  : io connection unit :=
  fun c =>
    match info INDEX_NAME c with
    | (Ok _, c1) => (Ok tt, c1)
    | (Raise _, c1) =>
        let schema := index_schema vector_dimensions self in
        let definition := {| index_type := HASH |} in
        create_index INDEX_NAME schema definition c1
    end.

(** Two calls in a row on the same connection. *)
Definition make_index_twice (self : MemoryDB) (vector_dimensions : Z)
  : io connection unit :=
  _ <~ make_index self vector_dimensions ;; make_index self vector_dimensions.

Definition creations (c : connection) : nat :=
  List.length (filter is_create (issued c)).
End Schema.

(** A store that holds at most one index and may be unreachable. *)
Record store : Type := {
  stored_index : option (list field);
  reachable : bool
}.

Definition store_info (index : string) (s : store) : result unit :=
  if negb (reachable s) then Raise (ConnectionError "connection refused")
  else match stored_index s with
       | Some _ => Ok tt
       | None => Raise (ResponseError "Unknown index name")
       end.

Definition store_create (index : string) (schema : list field)
    (definition : IndexDefinition) (s : store) : result unit * store :=
  if negb (reachable s) then (Raise (ConnectionError "connection refused"), s)
  else match stored_index s with
       | Some _ => (Raise (ResponseError "Index already exists"), s)
       | None => (Ok tt, {| stored_index := Some schema; reachable := true |})
       end.

(** ** The query builder: [search_embedding] *)

(** [redis.commands.search.query.Query]: a new query pages from 0 for 10
    results, returns the documents' content and names no field. *)
Record Query : Type := {
  query_string : string;
  paging_offset : Z;
  paging_num : Z;
  with_no_content : bool;
  return_fields : list string
}.

Definition new_Query (s : string) : Query :=
  {| query_string := s; paging_offset := 0; paging_num := 10;
     with_no_content := false; return_fields := [] |}.

Definition paging (q : Query) (offset num : Z) : Query :=
  {| query_string := query_string q; paging_offset := offset; paging_num := num;
     with_no_content := with_no_content q; return_fields := return_fields q |}.

Definition set_no_content (q : Query) : Query :=
  {| query_string := query_string q; paging_offset := paging_offset q;
     paging_num := paging_num q;
     with_no_content := true; return_fields := return_fields q |}.

Definition set_return_fields (q : Query) (fields : list string) : Query :=
  {| query_string := query_string q; paging_offset := paging_offset q;
     paging_num := paging_num q;
     with_no_content := with_no_content q;
     return_fields := return_fields q ++ fields |}.

(** [v[2:]] for the values modelled, a missing entry ([None]), [None], an
    integer or a string: of these only a string can be sliced. Values of
    other types (a list, a tuple, bytes), which Python slices as well, are
    outside [pyval]. *)
Definition from_third (v : option pyval) : result string :=
  match v with
  | Some (PyStr s) => Ok (str_drop 2 s)
  | Some PyNone => Raise TypeError
  | Some (PyInt _) => Raise TypeError
  | None => Raise TypeError
  end.

(** The query object [search_embedding] hands to the search command. *)
Definition search_query (self : MemoryDB) (k : Z) (filters : option (dict pyval))
  : result Query :=
  let query_obj :=
    paging (new_Query ("*=>[KNN " ++ str k ++ " @vector $vec "
                         ++ ef_runtime_str self ++ "]")%string) 0 k in
  query_obj <-
    match filters with
    | Some ((_ :: _) as filters) =>
        metadata_value <- from_third (dict_get filters "metadata") ;;
        Ok (paging
              (new_Query ("@metadata:[" ++ metadata_value ++ " +inf]=>[KNN "
                            ++ str k ++ " @vector $vec "
                            ++ ef_runtime_str self ++ "]")%string) 0 k)
    | _ => Ok query_obj
    end ;;
  Ok (if no_content self then set_no_content query_obj
      else set_return_fields query_obj ["id"%string]).

Section Search.
(** The query vector, its float32 bytes, the store's answer to the search
    command and Python's [int] on a string. *)
Variables (vector vector_bytes : Type).
Variable tobytes : vector -> vector_bytes.

Record Document : Type := {
  doc_id : string
}.

Variable ft_search : string -> Query -> vector_bytes -> result (list Document).
Variable int : string -> result Z.

Definition search_embedding (self : MemoryDB) (query : vector) (k : Z)
    (filters : option (dict pyval)) : result (list Z) :=
  match conn self with
  | None => Raise AssertionError
  | Some _ =>
      let query_vector := tobytes query in
      query_obj <- search_query self k filters ;;
      docs <- ft_search INDEX_NAME query_obj query_vector ;;
      for_each (fun doc => int (doc_id doc)) docs
  end.
End Search.

(** The store's query syntax as the specification describes a hybrid query:
    [<pre-filter>=>[KNN k @field $param attributes]], where the expression
    left of [=>] selects the candidates the KNN clause then ranks. *)
Inductive prefilter : Type :=
| AllDocuments
| NumericRange (name lower upper : string).

Record knn_clause : Type := {
  knn_k : Z;
  knn_field : string;
  knn_param : string;
  knn_attributes : string
}.

Definition render_prefilter (p : prefilter) : string :=
  match p with
  | AllDocuments => "*"
  | NumericRange name lower upper =>
      "@" ++ name ++ ":[" ++ lower ++ " " ++ upper ++ "]"
  end%string.

Definition render_knn (c : knn_clause) : string :=
  ("[KNN " ++ str (knn_k c) ++ " @" ++ knn_field c ++ " $" ++ knn_param c
     ++ " " ++ knn_attributes c ++ "]")%string.

Definition hybrid_query (p : prefilter) (c : knn_clause) : string :=
  (render_prefilter p ++ "=>" ++ render_knn c)%string.

(** ** Concrete configurations, stores and inputs *)

Definition standalone_config : DbConfig :=
  {| cmd := true; host := "localhost"; port := 6379 |}.

Definition sharded_config : DbConfig :=
  {| cmd := false; host := "cluster.example"; port := 6379 |}.

Definition hnsw_case (threads batch : Z) (m_value ef_c ef_r : pyval)
  : MemoryDBIndexConfig :=
  {| cfg_insert_batch_size := batch;
     cfg_ingestion_thread_count := threads;
     cfg_no_content := false;
     index_param :=
       {| metric := PyStr "COSINE"; m := m_value; ef_construction := ef_c |};
     search_param := {| ef_runtime := ef_r |} |}.

(** A client after [init], with [threads] ingestion threads and pipelines
    flushed every [batch] records. *)
Definition client (config : DbConfig) (threads batch : Z) : MemoryDB :=
  init (new_MemoryDB config
          (hnsw_case threads batch (PyInt 16) (PyInt 200) PyNone)).

(** Embeddings of small whole numbers stand for lists of floats; their bytes
    are not looked into. *)
Definition as_bytes (e : list Z) : list Z := e.

(** A server that acknowledges every batch, one that refuses every batch,
    and one that refuses the batches of worker 0 only. *)
Definition accepting (conn : Redis) (batch : list (hset (list Z))) : option exn :=
  None.

Definition refusing (conn : Redis) (batch : list (hset (list Z))) : option exn :=
  Some (ConnectionError "connection reset").

Definition refusing_worker_0 (conn : Redis) (batch : list (hset (list Z)))
  : option exn :=
  if (conn_id conn =? 0)%Z then Some (ConnectionError "connection reset")
  else None.

(** A world that is only a clock: a node whose flush ends at time 9, a node
    that is never idle, and a sleep that moves the clock on. *)
Definition drained_at_9 (args : unit) (now : Z) : bool * Z :=
  ((9 <=? now)%Z, now).

Definition never_idle (args : unit) (now : Z) : bool * Z := (false, now).

Definition clock_sleep (interval now : Z) : Z := (now + interval)%Z.

(** A fresh store, and one that already holds the index. *)
Definition empty_store : store := {| stored_index := None; reachable := true |}.

Definition provisioned_store : store :=
  {| stored_index := Some [TagField "id"]; reachable := true |}.

Definition unreachable_store : store :=
  {| stored_index := None; reachable := false |}.

Definition fresh_connection (s : store) : connection store :=
  {| srv := s; issued := [] |}.

(** A store that answers every search with the same two documents, and the
    decimal reading of an identifier. *)
Definition two_documents (index : string) (q : Query) (vec : list Z)
  : result (list Document) :=
  Ok [{| doc_id := "12" |}; {| doc_id := "7" |}].

Definition decimal (s : string) : result Z :=
  match NilZero.int_of_string s with
  | Some d => Ok (Z.of_int d)
  | None => Raise ValueError
  end.


(** ** What a worker sends *)

Section Records.
Variables (embedding vector_bytes : Type).
Variable tobytes : embedding -> vector_bytes.

(** The command one turn of the worker's loop buffers for an embedding and
    its metadata value. *)
Definition hset_of (e : embedding) (key : Z) : hset vector_bytes :=
  {| hset_name := key; hset_id := str key;
     hset_metadata := key; hset_vector := tobytes e |}.

(** The commands of a slice, in the order of the loop. *)
Definition records (embeddings : list embedding) (metadata : list Z)
  : list (hset vector_bytes) :=
  map (fun p => hset_of (fst p) (snd p)) (combine embeddings metadata).
End Records.

(** ** Repeated provisioning *)

Section Repeat.
Variable server : Type.
Variable ft_info : string -> server -> result unit.
Variable ft_create :
  string -> list field -> IndexDefinition -> server -> result unit * server.

(** [n] calls of [make_index] in a row on one connection, each reached when
    the call before it returned. *)
Fixpoint make_index_times (n : nat) (self : MemoryDB) (vector_dimensions : Z)
  : io (connection server) unit :=
  match n with
  | O => io_ret tt
  | S n' =>
      _ <~ make_index ft_info ft_create self vector_dimensions ;;
      make_index_times n' self vector_dimensions
  end.
End Repeat.

(** ** Leaving the [with self.init()] block *)

(** What the code after [yield] closes, and the error of calling [close] on
    [None]. *)
Inductive closed : Type :=
| ClosedPool (pool : ConnectionPool)
| ClosedClient (client : Topology).

Inductive exit_error : Type :=
| AttributeError (type_name attribute : string).

(** The statements of [init] after [yield], run when the block ends without
    an exception: [self.conn_pool.close()], [self.conn.close()],
    [self.conn_pool = None]. *)
Definition init_exit (self : MemoryDB)
  : option exit_error * MemoryDB * list closed :=
  match conn_pool self with
  | None => (Some (AttributeError "NoneType" "close"), self, [])
  | Some pool =>
      match conn self with
      | None =>
          (Some (AttributeError "NoneType" "close"), self, [ClosedPool pool])
      | Some c =>
          (None,
           {| db_config := db_config self;
              case_config := case_config self;
              insert_batch_size := insert_batch_size self;
              ingestion_thread_count := ingestion_thread_count self;
              no_content := no_content self;
              conn_pool := None;
              conn := conn self;
              ef_runtime_str := ef_runtime_str self |},
           [ClosedPool pool; ClosedClient c])
      end
  end.

(** ** [get_client] *)

Record node : Type := {
  node_host : string;
  node_port : Z
}.

(** The nodes a [RedisCluster] client knows after its start-up discovery. *)
Record cluster_nodes : Type := {
  primaries : list node;
  replica_nodes : list node
}.

Inductive target : Type := ALL_NODES | REPLICAS | DEFAULT_NODE.

Inductive client_command : Type :=
| PING (target_nodes : target)
| READONLY (target_nodes : target).

(** The objects [get_client] hands out: the cluster client, the standalone
    client on database [db], or the connection of one node of the cluster. *)
Inductive client_object : Type :=
| RedisCluster_of (config : DbConfig)
| Redis_of (config : DbConfig) (db : Z)
| redis_connection (n : node).

(** [get_client] returns one client, or a list of (connection, host). *)
Inductive got : Type :=
| OneClient (client : client_object)
| ReplicaList (clients : list (client_object * string)).

Section GetClient.
(** The discovery of the [RedisCluster] constructor and the reply to a
    command sent through the new client ([None]: no exception). *)
Variable discover : DbConfig -> result cluster_nodes.
Variable execute_command : client_object -> client_command -> option exn.

(** [kwargs.get("primary", False)] and [kwargs.get("replicas", False)] are
    passed as their truth values. The second component is the list of the
    commands sent. *)
Definition get_client (config : DbConfig) (primary replicas : bool)
  : result got * list client_command :=
  if negb (cmd config) then
    match discover config with
    | Raise e => (Raise e, [])
    | Ok nodes =>
        let client := RedisCluster_of config in
        match execute_command client (PING ALL_NODES) with
        | Some e => (Raise e, [PING ALL_NODES])
        | None =>
            let replicas_found := replica_nodes nodes in
            let readonly :=
              if (len replicas_found >? 0)%Z then [READONLY REPLICAS] else [] in
            match (if (len replicas_found >? 0)%Z
                   then execute_command client (READONLY REPLICAS)
                   else None) with
            | Some e => (Raise e, PING ALL_NODES :: readonly)
            | None =>
                match (if primary
                       then c <- getitem (primaries nodes) 0 ;;
                            Ok (redis_connection c)
                       else Ok client) with
                | Raise e => (Raise e, PING ALL_NODES :: readonly)
                | Ok client =>
                    if replicas
                    then (Ok (ReplicaList
                                (map (fun c => (redis_connection c, node_host c))
                                     replicas_found)),
                          PING ALL_NODES :: readonly)
                    else (Ok (OneClient client), PING ALL_NODES :: readonly)
                end
            end
        end
    end
  else
    let client := Redis_of config 0 in
    match execute_command client (PING DEFAULT_NODE) with
    | Some e => (Raise e, [PING DEFAULT_NODE])
    | None => (Ok (OneClient client), [PING DEFAULT_NODE])
    end.
End GetClient.

(** ** Waiting for the nodes: [wait_for_empty_db], [wait_for_no_activity],
    [_post_insert] and the [drop_old] path of [__init__] *)

Section Convergence.
(** The world is the state of all the nodes and the clock. [dbsize] is the
    reply to DBSIZE, [indexing_status] the value of
    [search_background_indexing_status] in the reply to INFO search,
    [flushall] the effect of FLUSHALL; they and [time.sleep] are taken to
    return. [ft_info] and [ft_create] are the index commands sent through a
    client. [primary] and [replica_clients] are what [get_client(primary=True)]
    and [get_client(replicas=True)] return. *)
Variables (world client : Type).
Variable dbsize : client -> world -> Z * world.
Variable indexing_status : client -> world -> string * world.
Variable flushall : client -> world -> world.
Variable sleep : Z -> world -> world.
Variable ft_info : client -> string -> world -> result unit.
Variable ft_create :
  client -> string -> list field -> IndexDefinition -> world
  -> result unit * world.
Variable primary : client.
Variable replica_clients : list (client * string).

Definition wait_for_no_activity (c : client) (w : world) : bool * world :=
  let (status, w') := indexing_status c w in
  ((status =? "NO_ACTIVITY")%string, w').

Definition wait_for_empty_db (c : client) (w : world) : bool * world :=
  let (keys, w') := dbsize c w in ((keys =? 0)%Z, w').

(** What happened on a node while the caller waited. *)
Inductive admin_event : Type :=
| FLUSHALL (c : client)
| Waited (c : client) (polled : list event)
| Closed (c : client).

(** [for rc, host in replica_clients: self.wait_until(condition, interval,
    "", rc); rc.close()], every wait with at most [fuel] turns. *)
Fixpoint wait_each (condition : client -> world -> bool * world)
    (fuel : nat) (interval : Z) (clients : list (client * string)) (w : world)
  : option (list admin_event * world) :=
  match clients with
  | [] => Some ([], w)
  | (rc, host) :: rest =>
      match wait_until condition sleep fuel interval rc w with
      | None => None
      | Some (polled, w1) =>
          match wait_each condition fuel interval rest w1 with
          | None => None
          | Some (evs, w2) => Some (Waited rc polled :: Closed rc :: evs, w2)
          end
      end
  end.

(** The events of waiting for a list of nodes: each node in turn, polled
    until its first true answer, then closed. *)
Definition waited_and_closed (interval : Z)
    (clients : list (client * string)) (ns : list nat)
  : list admin_event :=
  flat_map (fun p => [Waited (fst (fst p)) (polls interval (snd p));
                      Closed (fst (fst p))])
           (combine clients ns).

(** Waiting for the nodes of a list in turn, as facts about their answers:
    node number [j] is polled from the world its predecessor left; poll
    number [n_j] (from 0) is its first true answer, and [w'] is the world
    after the last node's last poll. *)
Fixpoint answered_in_turn (condition : client -> world -> bool * world)
    (interval : Z) (clients : list (client * string)) (ns : list nat)
    (w w' : world) : Prop :=
  match clients, ns with
  | [], [] => w' = w
  | (rc, _) :: rest, n :: ns' =>
      answer_at condition sleep interval rc w n = true /\
      (forall k, (k < n)%nat ->
                 answer_at condition sleep interval rc w k = false) /\
      answered_in_turn condition interval rest ns'
        (snd (condition rc (world_before condition sleep interval rc w n))) w'
  | _, _ => False
  end.

(** The status a node reports at poll number [k] of a wait for
    NO_ACTIVITY that starts in world [w]. *)
Definition reported (interval : Z) (c : client) (w : world) (k : nat)
  : string :=
  fst (indexing_status c
         (world_before wait_for_no_activity sleep interval c w k)).

(** The same for the waits for NO_ACTIVITY, in terms of the statuses the
    nodes report: poll number [n_j] of node [j] is the first that reports
    NO_ACTIVITY. *)
Fixpoint idle_in_turn (interval : Z) (clients : list (client * string))
    (ns : list nat) (w w' : world) : Prop :=
  match clients, ns with
  | [], [] => w' = w
  | (rc, _) :: rest, n :: ns' =>
      reported interval rc w n = "NO_ACTIVITY"%string /\
      (forall k, (k < n)%nat ->
                 reported interval rc w k <> "NO_ACTIVITY"%string) /\
      idle_in_turn interval rest ns'
        (snd (indexing_status rc
                (world_before wait_for_no_activity sleep interval rc w n))) w'
  | _, _ => False
  end.

(** [_post_insert], which is all [optimize] does. *)
Definition _post_insert (fuel : nat) (self : MemoryDB) (w : world)
  : option (list admin_event * world) :=
  match wait_until wait_for_no_activity sleep fuel 5 primary w with
  | None => None
  | Some (polled, w1) =>
      if negb (cmd (db_config self)) then
        match wait_each wait_for_no_activity fuel 5 replica_clients w1 with
        | None => None
        | Some (evs, w2) => Some (Waited primary polled :: evs, w2)
        end
      else Some ([Waited primary polled], w1)
  end.

Definition optimize (fuel : nat) (self : MemoryDB) (w : world)
  : option (list admin_event * world) :=
  _post_insert fuel self w.

(** The [if drop_old:] block of [__init__] on the connection [conn] to the
    primary: the probe, whose [ResponseError] alone is caught, then FLUSHALL
    and the waits. *)
Definition drop_old_block (fuel : nat) (self : MemoryDB)
    (c : connection world)
  : option (result unit * connection world * list admin_event) :=
  let (probe, c1) := info (ft_info primary) INDEX_NAME c in
  let flush_and_wait :=
    let w1 := flushall primary (srv c1) in
    match wait_until wait_for_empty_db sleep fuel 3 primary w1 with
    | None => None
    | Some (polled, w2) =>
        if negb (cmd (db_config self)) then
          match wait_each wait_for_empty_db fuel 3 replica_clients w2 with
          | None => None
          | Some (evs, w3) =>
              Some (Ok tt, {| srv := w3; issued := issued c1 |},
                    FLUSHALL primary :: Waited primary polled :: evs)
          end
        else
          Some (Ok tt, {| srv := w2; issued := issued c1 |},
                [FLUSHALL primary; Waited primary polled])
    end in
  match probe with
  | Ok _ => flush_and_wait
  | Raise (ResponseError _) => flush_and_wait
  | Raise e => Some (Raise e, c1, [])
  end.

(** [__init__] from the [if drop_old:] on: the block, [make_index] and the
    closing of the connection. *)
Definition __init__ (fuel : nat) (self : MemoryDB) (dim : Z) (drop_old : bool)
    (c : connection world)
  : option (result unit * connection world * list admin_event) :=
  match (if drop_old then drop_old_block fuel self c
         else Some (Ok tt, c, [])) with
  | None => None
  | Some (Raise e, c1, evs) => Some (Raise e, c1, evs)
  | Some (Ok _, c1, evs) =>
      match make_index (ft_info primary) (ft_create primary) self dim c1 with
      | (Ok _, c2) => Some (Ok tt, c2, evs ++ [Closed primary])
      | (Raise e, c2) => Some (Raise e, c2, evs)
      end
  end.
End Convergence.

(** ** Concrete clusters and worlds *)

(** A cluster of one primary and two replicas whose nodes all answer. *)
Definition three_nodes : cluster_nodes :=
  {| primaries := [{| node_host := "p0"; node_port := 6379 |}];
     replica_nodes := [{| node_host := "r0"; node_port := 6379 |};
                       {| node_host := "r1"; node_port := 6379 |}] |}.

Definition discovered (config : DbConfig) : result cluster_nodes :=
  Ok three_nodes.

Definition answering (c : client_object) (command : client_command)
  : option exn := None.

(** Nodes numbered 0 (the primary), 1 and 2 (its replicas), in a world that
    is a clock: node [c] is empty, and idle, from time [3 * c] on; the index
    exists from time 100 on, and creating it moves the clock there. *)
Definition keys_left (c : nat) (now : Z) : Z * Z :=
  ((if (3 * Z.of_nat c <=? now)%Z then 0 else 100)%Z, now).

Definition status_at (c : nat) (now : Z) : string * Z :=
  ((if (3 * Z.of_nat c <=? now)%Z then "NO_ACTIVITY" else "IN_PROGRESS")%string,
   now).

Definition busy_forever (c : nat) (now : Z) : string * Z :=
  ("IN_PROGRESS"%string, now).

Definition flushed (c : nat) (now : Z) : Z := now.

Definition clock_info (c : nat) (index : string) (now : Z) : result unit :=
  if (100 <=? now)%Z then Ok tt else Raise (ResponseError "Unknown index name").

Definition clock_create (c : nat) (index : string) (schema : list field)
    (definition : IndexDefinition) (now : Z) : result unit * Z :=
  (Ok tt, Z.max now 100).

Definition clock_refused (c : nat) (index : string) (now : Z) : result unit :=
  Raise (ConnectionError "connection refused").

Definition two_replicas : list (nat * string) := [(1%nat, "r0"); (2%nat, "r1")]%string.

(** * Properties *)

(** ** Sums, ranges and slices *)

Lemma sumZ_app (l1 l2 : list Z) : sumZ (l1 ++ l2) = (sumZ l1 + sumZ l2)%Z.
Proof.
  induction l1 as [|x l1 IH]; simpl; [reflexivity|]. rewrite IH. lia.
Qed.

Lemma sumZ_nonneg (l : list Z) :
  Forall (fun s => 0 <= s)%Z l -> (0 <= sumZ l)%Z.
Proof. induction 1; simpl; lia. Qed.

Lemma len_nonneg {A} (l : list A) : (0 <= len l)%Z.
Proof. unfold len. lia. Qed.

Lemma len_nil_inv {A} (l : list A) : len l = 0%Z -> l = [].
Proof. destruct l; [reflexivity|]. unfold len. simpl. lia. Qed.

Lemma len_slice {A} (l : list A) (lo hi : Z) :
  (0 <= lo)%Z -> (lo <= hi)%Z -> (hi <= len l)%Z ->
  len (slice l lo hi) = (hi - lo)%Z.
Proof.
  intros Hlo Hle Hhi. unfold slice, len in *.
  rewrite length_firstn, length_skipn. lia.
Qed.

Lemma firstn_plus {A} (a b : nat) (l : list A) :
  firstn (a + b) l = firstn a l ++ firstn b (skipn a l).
Proof.
  revert l. induction a as [|a IH]; intros l; [reflexivity|].
  destruct l as [|x l]; simpl.
  - now rewrite firstn_nil.
  - now rewrite IH.
Qed.

Lemma slice_app {A} (l : list A) (a b c : Z) :
  (0 <= a)%Z -> (a <= b)%Z -> (b <= c)%Z ->
  slice l a b ++ slice l b c = slice l a c.
Proof.
  intros Ha Hab Hbc. unfold slice.
  replace (Z.to_nat (c - a)) with (Z.to_nat (b - a) + Z.to_nat (c - b))%nat by lia.
  rewrite firstn_plus. f_equal.
  rewrite skipn_skipn. f_equal. f_equal. lia.
Qed.

Lemma slice_all {A} (l : list A) : slice l 0 (len l) = l.
Proof.
  unfold slice, len. simpl. rewrite Z.sub_0_r, Nat2Z.id. apply firstn_all.
Qed.

Lemma slice_empty {A} (l : list A) (a : Z) : slice l a a = [].
Proof. unfold slice. rewrite Z.sub_diag. reflexivity. Qed.

Lemma length_range (n : Z) : List.length (range n) = Z.to_nat n.
Proof. unfold range. now rewrite length_map, length_seq. Qed.

Lemma nth_range (n : Z) (i : nat) (x : Z) :
  nth_error (range n) i = Some x -> x = Z.of_nat i /\ (Z.of_nat i < n)%Z.
Proof.
  unfold range. intros H.
  rewrite nth_error_map, nth_error_seq in H.
  destruct (Nat.ltb_spec i (Z.to_nat n)); [|discriminate].
  simpl in H. inversion H. split; lia.
Qed.

(** ** The loop of [split_list_into_parts] *)

Lemma fold_split_step {A} (lst : list A) (sizes : list Z) :
  forall res index,
    fold_left (split_step lst) sizes (res, index)
    = (res ++ slices_from lst index sizes, (index + sumZ sizes)%Z).
Proof.
  induction sizes as [|size rest IH]; intros res index; simpl.
  - now rewrite app_nil_r, Z.add_0_r.
  - rewrite IH, <- app_assoc. simpl. f_equal. lia.
Qed.

Lemma length_slices_from {A} (lst : list A) (sizes : list Z) :
  forall index, List.length (slices_from lst index sizes) = List.length sizes.
Proof. induction sizes as [|s r IH]; intros index; simpl; auto. Qed.

Lemma nth_slices_from {A} (lst : list A) (sizes : list Z) :
  forall index i p,
    nth_error (slices_from lst index sizes) i = Some p ->
    exists size,
      nth_error sizes i = Some size /\
      p = slice lst (index + sumZ (firstn i sizes))
                    (index + sumZ (firstn i sizes) + size).
Proof.
  induction sizes as [|s r IH]; intros index i p H.
  - destruct i; discriminate.
  - destruct i as [|i]; simpl in *.
    + inversion H; subst. exists s. rewrite Z.add_0_r. auto.
    + destruct (IH _ _ _ H) as (size & Hs & Hp). exists size. split; [exact Hs|].
      rewrite Hp. f_equal; lia.
Qed.

Lemma lens_slices_from {A} (lst : list A) (sizes : list Z) :
  forall index,
    Forall (fun s => 0 <= s)%Z sizes ->
    (0 <= index)%Z -> (index + sumZ sizes <= len lst)%Z ->
    map len (slices_from lst index sizes) = sizes.
Proof.
  induction sizes as [|s r IH]; intros index Hpos Hi Hfit; simpl; [reflexivity|].
  inversion Hpos as [|? ? Hs Hr]; subst. simpl in Hfit.
  pose proof (sumZ_nonneg Hr).
  rewrite len_slice by lia. rewrite IH by (auto; lia). f_equal. lia.
Qed.

Lemma concat_slices_from {A} (lst : list A) (sizes : list Z) :
  forall index,
    Forall (fun s => 0 <= s)%Z sizes -> (0 <= index)%Z ->
    List.concat (slices_from lst index sizes)
    = slice lst index (index + sumZ sizes).
Proof.
  induction sizes as [|s r IH]; intros index Hpos Hi; simpl.
  - now rewrite Z.add_0_r, slice_empty.
  - inversion Hpos as [|? ? Hs Hr]; subst.
    pose proof (sumZ_nonneg Hr).
    rewrite IH by (auto; lia). rewrite slice_app by lia. f_equal. lia.
Qed.

(** The sizes: [num_parts] of them, the first [remainder] one larger. *)

Lemma sumZ_sizes_seq (b r : Z) (k : nat) :
  (0 <= r)%Z ->
  sumZ (map (fun i => if (i <? r)%Z then (b + 1)%Z else b)
            (map Z.of_nat (seq 0 k)))
  = (Z.of_nat k * b + Z.min r (Z.of_nat k))%Z.
Proof.
  intros Hr. induction k as [|k IH].
  - simpl. lia.
  - rewrite seq_S, !map_app, sumZ_app, IH.
    cbn [map sumZ fold_right Nat.add].
    destruct (Z.ltb_spec (Z.of_nat k) r); lia.
Qed.

Lemma length_part_sizes (b r num_parts : Z) :
  List.length (part_sizes b r num_parts) = Z.to_nat num_parts.
Proof. unfold part_sizes. now rewrite length_map, length_range. Qed.

Lemma nth_part_sizes (b r num_parts : Z) (i : nat) (s : Z) :
  nth_error (part_sizes b r num_parts) i = Some s ->
  s = (b + (if Z.of_nat i <? r then 1 else 0))%Z.
Proof.
  unfold part_sizes. rewrite nth_error_map.
  destruct (nth_error (range num_parts) i) as [x|] eqn:E; [|discriminate].
  apply nth_range in E. destruct E as [-> _]. simpl. intros H. inversion H.
  destruct (Z.of_nat i <? r)%Z; lia.
Qed.

Lemma part_sizes_nonneg (b r num_parts : Z) :
  (0 <= b)%Z -> Forall (fun s => 0 <= s)%Z (part_sizes b r num_parts).
Proof.
  intros Hb. unfold part_sizes. apply Forall_map, Forall_forall. intros i _.
  destruct (i <? r)%Z; lia.
Qed.

Lemma sumZ_part_sizes (n num_parts : Z) :
  (0 <= n)%Z -> (1 <= num_parts)%Z ->
  sumZ (part_sizes (n / num_parts) (n mod num_parts) num_parts) = n.
Proof.
  intros Hn Hk. unfold part_sizes, range.
  pose proof (Z.mod_pos_bound n num_parts ltac:(lia)) as Hm.
  rewrite sumZ_sizes_seq by lia. rewrite Z2Nat.id by lia.
  rewrite Z.min_l by lia.
  pose proof (Z.div_mod n num_parts ltac:(lia)). lia.
Qed.

(** What [split_list_into_parts] returns for a positive number of parts. *)
Lemma split_list_into_parts_slices {A} (lst : list A) (num_parts : Z) :
  (1 <= num_parts)%Z ->
  split_list_into_parts lst num_parts
  = Ok (slices_from lst 0
          (part_sizes (len lst / num_parts) (len lst mod num_parts) num_parts)).
Proof.
  intros Hk. unfold split_list_into_parts, floordiv, pymod.
  destruct (Z.eqb_spec num_parts 0) as [E|_]; [lia|].
  cbn [bind]. now rewrite fold_split_step.
Qed.

Lemma lens_split {A} (lst : list A) (num_parts : Z) :
  (1 <= num_parts)%Z ->
  map len (slices_from lst 0
             (part_sizes (len lst / num_parts) (len lst mod num_parts) num_parts))
  = part_sizes (len lst / num_parts) (len lst mod num_parts) num_parts.
Proof.
  intros Hk. pose proof (len_nonneg lst) as Hn.
  apply lens_slices_from.
  - apply part_sizes_nonneg, Z.div_pos; lia.
  - lia.
  - rewrite sumZ_part_sizes by lia. lia.
Qed.

Lemma split_list_into_parts_props {A} (lst : list A) (num_parts : Z) :
  (1 <= num_parts)%Z ->
  exists parts,
    split_list_into_parts lst num_parts = Ok parts /\
    len parts = num_parts /\
    sumZ (map len parts) = len lst /\
    (forall i p,
        nth_error parts i = Some p ->
        len p = (len lst / num_parts
                 + (if Z.of_nat i <? len lst mod num_parts then 1 else 0))%Z) /\
    (forall i p,
        nth_error parts i = Some p ->
        p = slice lst (offset parts i) (offset parts i + len p)) /\
    List.concat parts = lst.
Proof.
  intros Hk. rewrite split_list_into_parts_slices by exact Hk.
  set (sizes := part_sizes _ _ _).
  pose proof (len_nonneg lst) as Hn.
  assert (Hpos : Forall (fun s => 0 <= s)%Z sizes).
  { apply part_sizes_nonneg, Z.div_pos; lia. }
  pose proof (sumZ_part_sizes Hn Hk) as Hsum. fold sizes in Hsum.
  pose proof (lens_split lst Hk) as Hlens. fold sizes in Hlens.
  eexists. split; [reflexivity|]. repeat split.
  - unfold len at 1. rewrite length_slices_from. unfold sizes.
    rewrite length_part_sizes. lia.
  - now rewrite Hlens.
  - intros i p Hp. apply (@nth_part_sizes _ _ num_parts i).
    fold sizes. rewrite <- Hlens at 1. now apply map_nth_error.
  - intros i p Hp. unfold offset. rewrite <- firstn_map, Hlens.
    destruct (nth_slices_from _ _ _ _ Hp) as (size & Hs & Heq).
    assert (len p = size) as ->.
    { pose proof (map_nth_error len _ _ Hp) as Hm. rewrite Hlens in Hm.
      congruence. }
    rewrite Heq at 1. f_equal.
  - rewrite concat_slices_from by (auto; lia). rewrite Hsum. apply slice_all.
Qed.

(** ** The partition of the records (C3) *)

(** C3. For every list of length n and every num_parts >= 1,
    split_list_into_parts returns exactly num_parts slices; their lengths sum
    to n and pairwise differ by at most 1; slice i has n // num_parts
    elements, and one more when i < n mod num_parts; each slice is the
    contiguous run of the list that starts where the slices before it end;
    and the slices concatenated in order give back the list. *)
Theorem split_list_into_parts_balanced {A} (lst : list A) (num_parts : Z) :
  (1 <= num_parts)%Z ->
  exists parts,
    split_list_into_parts lst num_parts = Ok parts /\
    len parts = num_parts /\
    sumZ (map len parts) = len lst /\
    (forall i j p q,
        nth_error parts i = Some p -> nth_error parts j = Some q ->
        (Z.abs (len p - len q) <= 1)%Z) /\
    (forall i p,
        nth_error parts i = Some p ->
        len p = (len lst / num_parts
                 + (if Z.of_nat i <? len lst mod num_parts then 1 else 0))%Z) /\
    (forall i p,
        nth_error parts i = Some p ->
        p = slice lst (offset parts i) (offset parts i + len p)) /\
    List.concat parts = lst.
Proof.
  intros Hk.
  destruct (split_list_into_parts_props lst Hk)
    as (parts & Hsplit & Hlen & Hsum & Hsize & Hrun & Hcat).
  exists parts. repeat split; auto.
  intros i j p q Hp Hq. rewrite (Hsize _ _ Hp), (Hsize _ _ Hq).
  destruct (Z.of_nat i <? len lst mod num_parts)%Z,
           (Z.of_nat j <? len lst mod num_parts)%Z; lia.
Qed.

(** The theorem at a list of five records cut in three. *)
Lemma split_list_into_parts_balanced_witness :
  (1 <= 3)%Z /\
  exists parts,
    split_list_into_parts [10; 11; 12; 13; 14]%Z 3 = Ok parts /\
    len parts = 3%Z /\
    sumZ (map len parts) = 5%Z /\
    (forall i j p q,
        nth_error parts i = Some p -> nth_error parts j = Some q ->
        (Z.abs (len p - len q) <= 1)%Z) /\
    (forall i p,
        nth_error parts i = Some p ->
        len p = (5 / 3 + (if Z.of_nat i <? 5 mod 3 then 1 else 0))%Z) /\
    (forall i p,
        nth_error parts i = Some p ->
        p = slice [10; 11; 12; 13; 14]%Z
                  (offset parts i) (offset parts i + len p)) /\
    List.concat parts = [10; 11; 12; 13; 14]%Z.
Proof.
  split; [lia|].
  apply (@split_list_into_parts_balanced Z [10; 11; 12; 13; 14]%Z 3).
  lia.
Defined.

Example split_5_in_3 :
  split_list_into_parts [10; 11; 12; 13; 14]%Z 3
  = Ok [[10; 11]; [12; 13]; [14]]%Z.
Proof. reflexivity. Qed.

Example split_10000_in_4 :
  part_sizes (10000 / 4) (10000 mod 4) 4 = [2500; 2500; 2500; 2500]%Z.
Proof. reflexivity. Qed.

Example split_by_zero :
  split_list_into_parts [10; 11]%Z 0 = Raise ZeroDivisionError.
Proof. reflexivity. Qed.

Example split_negative :
  split_list_into_parts [10; 11]%Z (-2) = Ok [].
Proof. reflexivity. Qed.

(** ** Loops that may raise *)

Lemma for_each_map {X Y} (f : X -> result Y) (g : X -> Y) (l : list X) :
  (forall x, In x l -> f x = Ok (g x)) -> for_each f l = Ok (map g l).
Proof.
  induction l as [|x l IH]; intros H; simpl; [reflexivity|].
  rewrite (H x) by (now left). simpl.
  rewrite IH by (intros y Hy; apply H; now right). reflexivity.
Qed.

Lemma in_range (n x : Z) : In x (range n) -> (0 <= x < n)%Z.
Proof.
  unfold range. rewrite in_map_iff. intros (k & <- & Hk).
  apply in_seq in Hk. lia.
Qed.

Lemma map_nth_range {A} (l : list A) (d : A) :
  map (fun i => nth (Z.to_nat i) l d) (range (len l)) = l.
Proof.
  unfold range, len. rewrite Nat2Z.id, map_map.
  erewrite map_ext by (intros k; rewrite Nat2Z.id; reflexivity).
  induction l as [|a l IH] using rev_ind; [reflexivity|].
  rewrite length_app. simpl. rewrite Nat.add_1_r, seq_S, map_app. simpl.
  rewrite app_nth2, Nat.sub_diag by lia. simpl. f_equal.
  rewrite <- IH at 2. apply map_ext_in. intros k Hk. apply in_seq in Hk.
  apply app_nth1. lia.
Qed.

Lemma getitem_nth {A} (l : list A) (i : Z) (d : A) :
  (0 <= i < len l)%Z -> getitem l i = Ok (nth (Z.to_nat i) l d).
Proof.
  intros Hi. unfold getitem.
  destruct (nth_error l (Z.to_nat i)) as [a|] eqn:E.
  - now rewrite (nth_error_nth _ _ d E).
  - apply nth_error_None in E. unfold len in Hi. lia.
Qed.

Lemma sumZ_map_le {X} (f g : X -> Z) (l : list X) :
  (forall x, In x l -> (f x <= g x)%Z) ->
  (sumZ (map f l) <= sumZ (map g l))%Z.
Proof.
  induction l as [|x l IH]; intros H; simpl; [lia|].
  pose proof (H x (or_introl eq_refl)).
  assert (sumZ (map f l) <= sumZ (map g l))%Z
    by (apply IH; intros y Hy; apply H; now right).
  lia.
Qed.

Lemma sumZ_map_eq_iff {X} (f g : X -> Z) (l : list X) :
  (forall x, In x l -> (f x <= g x)%Z) ->
  sumZ (map f l) = sumZ (map g l) <-> (forall x, In x l -> f x = g x).
Proof.
  induction l as [|x l IH]; intros H; simpl.
  - split; [intros _ y []|reflexivity].
  - pose proof (H x (or_introl eq_refl)) as Hx.
    assert (Hl : forall y, In y l -> (f y <= g y)%Z)
      by (intros y Hy; apply H; now right).
    pose proof (sumZ_map_le f g l Hl) as Hle.
    specialize (IH Hl). split.
    + intros Heq y [<-|Hy]; [lia|]. apply IH; [lia|exact Hy].
    + intros Hall. rewrite (Hall x (or_introl eq_refl)).
      f_equal. apply IH. intros y Hy. apply Hall. now right.
Qed.

(** The result queue: the total does not depend on the order in which the
    workers put their counts. *)
Lemma drain_sumZ (result_queue : list Z) (result_len : Z) :
  drain result_queue result_len = (result_len + sumZ result_queue)%Z.
Proof.
  revert result_len. unfold drain.
  induction result_queue as [|x q IH]; intros a; simpl; [lia|].
  rewrite IH. lia.
Qed.

Lemma drain_Permutation (q1 q2 : list Z) (result_len : Z) :
  Permutation q1 q2 -> drain q1 result_len = drain q2 result_len.
Proof.
  intros HP. rewrite !drain_sumZ. f_equal.
  induction HP; simpl; lia.
Qed.

(** ** One ingestion worker *)

Section IngestionFacts.
Variables (embedding vector_bytes : Type).
Variable tobytes : embedding -> vector_bytes.
Variable execute_reply : Redis -> list (hset vector_bytes) -> option exn.

Local Abbreviation worker := (insert_embedding_batch tobytes execute_reply).

(** When the loop ends without an exception, its variable [i] holds the
    index of the last embedding, and is unbound if there was none. *)
Lemma batch_loop_bound (self : MemoryDB) (conn : Redis) (metadata : list Z)
    (embeddings : list embedding) :
  forall i bound pipe b pipe',
    batch_loop tobytes execute_reply self conn metadata i embeddings bound pipe
    = (Ok b, pipe') ->
    b = match embeddings with
        | [] => bound
        | _ :: _ => Some (i + len embeddings - 1)%Z
        end.
Proof.
  induction embeddings as [|e rest IH]; intros i bound pipe b pipe' H.
  - inversion H. reflexivity.
  - cbn [batch_loop] in H. unfold io_bind, io_lift, pipe_hset in H.
    destruct (getitem metadata i) as [key|]; [|discriminate].
    destruct (pymod (i + 1) (insert_batch_size self)) as [r|]; [|discriminate].
    match type of H with
    | context [(if ?c then _ else _) ?p] =>
        destruct ((if c then pipe_execute execute_reply conn else io_ret tt) p)
          as [[[]|] p1]
    end; [|discriminate].
    apply IH in H. rewrite H.
    destruct rest as [|e' rest'].
    + f_equal. unfold len. simpl. lia.
    + f_equal. unfold len. simpl List.length. lia.
Qed.

Lemma worker_conn (self : MemoryDB) (conn : Redis)
    (embeddings : list embedding) (metadata : list Z) :
  run_conn (worker self conn embeddings metadata) = conn.
Proof.
  unfold insert_embedding_batch. now destruct (batch_body _ _ _ _ _ _ _).
Qed.

Lemma batch_body_ok (self : MemoryDB) (conn : Redis)
    (embeddings : list embedding) (metadata : list Z) pipe n pipe' :
  batch_body tobytes execute_reply self conn embeddings metadata pipe
  = (Ok n, pipe') ->
  n = len embeddings /\ embeddings <> [].
Proof.
  unfold batch_body, io_bind.
  destruct (batch_loop _ _ _ _ _ _ _ _ _) as [[b|e] p1] eqn:E;
    [|discriminate].
  apply batch_loop_bound in E.
  destruct (pipe_execute execute_reply conn p1) as [[[]|e] p2];
    [|discriminate].
  destruct embeddings as [|e0 rest]; subst b; cbv [io_raise io_ret];
    intros H; [discriminate H|].
  assert (Hn : (0 + len (e0 :: rest) - 1 + 1)%Z = n) by congruence.
  split; [lia|intros Hnil; discriminate Hnil].
Qed.

(** A worker that reaches the end of its [try] reports the length of its
    slice, and the slice is not empty. *)
Lemma worker_ok (self : MemoryDB) (conn : Redis)
    (embeddings : list embedding) (metadata : list Z) (n : Z) :
  outcome (worker self conn embeddings metadata) = Ok n ->
  put (worker self conn embeddings metadata) = len embeddings /\
  n = len embeddings /\ embeddings <> [].
Proof.
  unfold insert_embedding_batch.
  destruct (batch_body _ _ _ _ _ _ _) as [[k|e] p] eqn:E; simpl;
    intros H; inversion H; subst.
  apply batch_body_ok in E. tauto.
Qed.

(** A worker whose [try] raises puts 0 on the queue. *)
Lemma worker_raise (self : MemoryDB) (conn : Redis)
    (embeddings : list embedding) (metadata : list Z) (e : exn) :
  outcome (worker self conn embeddings metadata) = Raise e ->
  put (worker self conn embeddings metadata) = 0%Z.
Proof.
  unfold insert_embedding_batch.
  destruct (batch_body _ _ _ _ _ _ _) as [[n|e'] p]; simpl; congruence.
Qed.

(** The worker of an empty slice: [i] is unbound after the loop. *)
Lemma worker_empty (self : MemoryDB) (conn : Redis) (metadata : list Z) :
  outcome (worker self conn [] metadata) = Raise (UnboundLocalError "i") /\
  put (worker self conn [] metadata) = 0%Z.
Proof. split; reflexivity. Qed.

Lemma worker_put_le (self : MemoryDB) (conn : Redis)
    (embeddings : list embedding) (metadata : list Z) :
  (put (worker self conn embeddings metadata) <= len embeddings)%Z.
Proof.
  destruct (outcome (worker self conn embeddings metadata)) as [n|e] eqn:E.
  - apply worker_ok in E. lia.
  - apply worker_raise in E. rewrite E. apply len_nonneg.
Qed.

(** The count equals the slice's length exactly when the worker did not
    raise or had nothing to write. *)
Lemma worker_put_eq (self : MemoryDB) (conn : Redis)
    (embeddings : list embedding) (metadata : list Z) :
  put (worker self conn embeddings metadata) = len embeddings <->
  (raised (worker self conn embeddings metadata) = true -> embeddings = []).
Proof.
  unfold raised.
  destruct (outcome (worker self conn embeddings metadata)) as [n|e] eqn:E;
    simpl.
  - apply worker_ok in E. split; [discriminate|tauto].
  - apply worker_raise in E. rewrite E. split.
    + intros H _. now apply len_nil_inv.
    + intros H. now rewrite H.
Qed.
End IngestionFacts.

(** ** The workers of one [insert_embeddings] call *)

Lemma nth_error_range (n : Z) (i : nat) :
  (Z.of_nat i < n)%Z -> nth_error (range n) i = Some (Z.of_nat i).
Proof.
  intros Hi. unfold range. rewrite nth_error_map, nth_error_seq.
  destruct (Nat.ltb_spec i (Z.to_nat n)); [reflexivity|lia].
Qed.

Lemma nth_error_map_range {Y} (g : Z -> Y) (n : Z) (i : nat) (y : Y) :
  nth_error (map g (range n)) i = Some y <->
  (Z.of_nat i < n)%Z /\ y = g (Z.of_nat i).
Proof.
  rewrite nth_error_map. split.
  - destruct (nth_error (range n) i) as [x|] eqn:E; [|discriminate].
    apply nth_range in E. destruct E as [-> Hlt]. simpl. intros H.
    inversion H. auto.
  - intros [Hlt ->]. now rewrite nth_error_range.
Qed.

Section Workers.
Variables (embedding vector_bytes : Type).
Variable tobytes : embedding -> vector_bytes.
Variable execute_reply : Redis -> list (hset vector_bytes) -> option exn.

Local Abbreviation worker := (insert_embedding_batch tobytes execute_reply).
Local Abbreviation workers := (run_workers tobytes execute_reply).
Local Abbreviation insert := (insert_embeddings tobytes execute_reply).

Lemma run_workers_map (self : MemoryDB) (embeddings : list embedding)
    (metadata : list Z) :
  (1 <= ingestion_thread_count self)%Z ->
  exists embedding_parts metadata_parts,
    split_list_into_parts embeddings (ingestion_thread_count self)
    = Ok embedding_parts /\
    split_list_into_parts metadata (ingestion_thread_count self)
    = Ok metadata_parts /\
    len embedding_parts = ingestion_thread_count self /\
    sumZ (map len embedding_parts) = len embeddings /\
    workers self embeddings metadata
    = Ok (map (worker_at tobytes execute_reply self embedding_parts metadata_parts)
              (range (ingestion_thread_count self))).
Proof.
  intros Htc.
  destruct (split_list_into_parts_props embeddings Htc)
    as (eparts & He & Hel & Hes & _).
  destruct (split_list_into_parts_props metadata Htc)
    as (mparts & Hm & Hml & _).
  exists eparts, mparts. repeat split; auto.
  unfold run_workers. rewrite He, Hm. cbn [bind].
  apply for_each_map. intros i Hi. apply in_range in Hi.
  unfold spawn, worker_at.
  rewrite (getitem_nth eparts [] (i := i)) by lia.
  rewrite (getitem_nth mparts [] (i := i)) by lia.
  reflexivity.
Qed.

(** With no positive thread count there is no worker: a negative count
    starts none, and zero makes the partition raise. *)
Lemma run_workers_nonpositive (self : MemoryDB) (embeddings : list embedding)
    (metadata : list Z) :
  (ingestion_thread_count self <= 0)%Z ->
  workers self embeddings metadata
  = if (ingestion_thread_count self =? 0)%Z then Raise ZeroDivisionError
    else Ok [].
Proof.
  intros Htc. unfold run_workers, split_list_into_parts, floordiv, pymod.
  destruct (Z.eqb_spec (ingestion_thread_count self) 0) as [E|NE];
    [reflexivity|].
  cbn [bind]. unfold part_sizes, range.
  replace (Z.to_nat (ingestion_thread_count self)) with O by lia.
  reflexivity.
Qed.

Lemma insert_embeddings_total (self : MemoryDB) (embeddings : list embedding)
    (metadata : list Z) (runs : list (worker_run vector_bytes)) :
  workers self embeddings metadata = Ok runs ->
  insert self embeddings metadata = (sumZ (map (@put _) runs), None).
Proof.
  intros H. unfold insert_embeddings. rewrite H, drain_sumZ. reflexivity.
Qed.

(** The call returns an error only when the thread count is zero. *)
Lemma insert_embeddings_error (self : MemoryDB) (embeddings : list embedding)
    (metadata : list Z) (e : exn) :
  snd (insert self embeddings metadata) = Some e ->
  ingestion_thread_count self = 0%Z /\ e = ZeroDivisionError.
Proof.
  unfold insert_embeddings.
  destruct (Z_lt_le_dec 0 (ingestion_thread_count self)) as [Hpos|Hneg].
  - destruct (@run_workers_map self embeddings metadata ltac:(lia))
      as (ep & mp & _ & _ & _ & _ & ->). discriminate.
  - rewrite run_workers_nonpositive by exact Hneg.
    destruct (Z.eqb_spec (ingestion_thread_count self) 0); simpl.
    + intros H. inversion H. auto.
    + discriminate.
Qed.

(** The workers of a call, slice by slice, and the total they give. *)
Lemma insert_embeddings_workers (self : MemoryDB)
    (embeddings : list embedding) (metadata : list Z) :
  (1 <= ingestion_thread_count self)%Z ->
  exists embedding_parts metadata_parts runs,
    split_list_into_parts embeddings (ingestion_thread_count self)
    = Ok embedding_parts /\
    split_list_into_parts metadata (ingestion_thread_count self)
    = Ok metadata_parts /\
    workers self embeddings metadata = Ok runs /\
    len runs = ingestion_thread_count self /\
    len embedding_parts = ingestion_thread_count self /\
    (forall i r,
        nth_error runs i = Some r ->
        exists e md,
          nth_error embedding_parts i = Some e /\
          nth_error metadata_parts i = Some md /\
          r = worker self {| conn_id := Z.of_nat i;
                             connection_pool := conn_pool self |} e md) /\
    insert self embeddings metadata = (sumZ (map (@put _) runs), None) /\
    (sumZ (map (@put _) runs) <= len embeddings)%Z /\
    (sumZ (map (@put _) runs) = len embeddings <->
     forall i r e,
       nth_error runs i = Some r -> nth_error embedding_parts i = Some e ->
       raised r = true -> e = []).
Proof.
  intros Htc.
  destruct (run_workers_map self embeddings metadata Htc)
    as (eparts & mparts & He & Hm & Hel & Hes & Hruns).
  assert (Hml : len mparts = ingestion_thread_count self).
  { destruct (split_list_into_parts_props metadata Htc)
      as (mp & Hm' & Hml & _). congruence. }
  set (tc := ingestion_thread_count self) in *.
  set (g := worker_at tobytes execute_reply self eparts mparts) in *.
  assert (Hnth : forall i r,
             nth_error (map g (range tc)) i = Some r ->
             exists e md,
               nth_error eparts i = Some e /\ nth_error mparts i = Some md /\
               nth (Z.to_nat (Z.of_nat i)) eparts [] = e /\
               r = worker self {| conn_id := Z.of_nat i;
                                  connection_pool := conn_pool self |} e md).
  { intros i r Hr. apply nth_error_map_range in Hr. destruct Hr as [Hlt ->].
    destruct (nth_error eparts i) as [e|] eqn:Ee;
      [|apply nth_error_None in Ee; unfold len in Hel; lia].
    destruct (nth_error mparts i) as [md|] eqn:Em;
      [|apply nth_error_None in Em; unfold len in Hml; lia].
    exists e, md. repeat split.
    - rewrite Nat2Z.id. now apply nth_error_nth.
    - unfold g, worker_at. rewrite Nat2Z.id.
      now rewrite (nth_error_nth _ _ [] Ee), (nth_error_nth _ _ [] Em). }
  assert (Hlen : len embeddings
                 = sumZ (map (fun i => len (nth (Z.to_nat i) eparts []))
                             (range tc))).
  { rewrite <- Hes. rewrite <- (map_nth_range eparts []) at 1.
    rewrite map_map, Hel. reflexivity. }
  assert (Hle : forall x, In x (range tc) ->
                (put (g x) <= len (nth (Z.to_nat x) eparts []))%Z).
  { intros x _. apply worker_put_le. }
  exists eparts, mparts, (map g (range tc)).
  split; [exact He|]. split; [exact Hm|]. split; [exact Hruns|].
  split; [unfold len; rewrite length_map, length_range; lia|].
  split; [exact Hel|].
  split.
  { intros i r Hr. destruct (Hnth i r Hr) as (e & md & H1 & H2 & _ & H3).
    eauto. }
  split; [now apply insert_embeddings_total|].
  rewrite map_map, Hlen. split; [now apply sumZ_map_le|].
  rewrite (sumZ_map_eq_iff _ _ _ Hle). split.
  - intros Hall i r e Hr Hei Hraised.
    destruct (Hnth i r Hr) as (e' & md & He' & _ & Hn & Hrw).
    assert (E' : e' = e) by congruence. rewrite E' in *. clear E' He'.
    apply nth_error_map_range in Hr. destruct Hr as [Hlt Hrg].
    assert (Hin : In (Z.of_nat i) (range tc)).
    { eapply nth_error_In. now apply nth_error_range. }
    specialize (Hall _ Hin). rewrite Hn in Hall.
    unfold g, worker_at in Hall, Hrg. rewrite Hn in Hall, Hrg.
    apply worker_put_eq in Hall; [exact Hall|]. now rewrite <- Hrg.
  - intros Hall x Hx. pose proof (@in_range _ _ Hx) as Hb.
    unfold g, worker_at. apply worker_put_eq. intros Hraised.
    assert (Hr : nth_error (map g (range tc)) (Z.to_nat x) = Some (g x)).
    { apply nth_error_map_range. rewrite Z2Nat.id by lia. split; [lia|auto]. }
    destruct (Hnth _ _ Hr) as (e & md & Hei & _ & Hn & _).
    rewrite Z2Nat.id in Hn by lia. rewrite Hn.
    apply (Hall _ _ _ Hr Hei Hraised).
Qed.
End Workers.

Lemma for_each_In {X Y} (f : X -> result Y) (l : list X) :
  forall ys y,
    for_each f l = Ok ys -> In y ys -> exists x, In x l /\ f x = Ok y.
Proof.
  induction l as [|x l IH]; intros ys y H Hy; simpl in H.
  - inversion H; subst. destruct Hy.
  - destruct (f x) as [y0|] eqn:Ef; [|discriminate]. simpl in H.
    destruct (for_each f l) as [ys0|] eqn:El; [|discriminate]. simpl in H.
    inversion H; subst. destruct Hy as [<-|Hy].
    + exists x. split; [now left|exact Ef].
    + destruct (IH _ _ eq_refl Hy) as (x' & Hin & Hx'). exists x'.
      split; [now right|exact Hx'].
Qed.

Lemma sumZ_map_skip {X} (f : X -> Z) (l : list X) (i : nat) (x : X) :
  nth_error l i = Some x ->
  sumZ (map f l)
  = (sumZ (map f (firstn i l)) + f x + sumZ (map f (skipn (S i) l)))%Z.
Proof.
  unfold sumZ.
  revert i. induction l as [|a l IH]; intros [|i] H; try discriminate.
  - inversion H; subst. simpl. lia.
  - simpl in H. cbn [firstn skipn map fold_right].
    rewrite (IH _ H). cbn [skipn]. lia.
Qed.

(** ** The total of an insert call (C1, C2, C9) *)

Section Insert.
Variables (embedding vector_bytes : Type).
Variable tobytes : embedding -> vector_bytes.
Variable execute_reply : Redis -> list (hset vector_bytes) -> option exn.

Local Abbreviation workers := (run_workers tobytes execute_reply).
Local Abbreviation insert := (insert_embeddings tobytes execute_reply).

(** The total never exceeds the number of records, whatever the thread
    count. *)
Lemma insert_embeddings_total_le (self : MemoryDB)
    (embeddings : list embedding) (metadata : list Z) :
  (fst (insert self embeddings metadata) <= len embeddings)%Z.
Proof.
  destruct (Z_lt_le_dec 0 (ingestion_thread_count self)) as [Hpos|Hneg].
  - destruct (@insert_embeddings_workers _ _ tobytes execute_reply
                self embeddings metadata ltac:(lia))
      as (ep & mp & runs & _ & _ & _ & _ & _ & _ & -> & Hle & _).
    exact Hle.
  - unfold insert_embeddings. rewrite run_workers_nonpositive by exact Hneg.
    destruct (ingestion_thread_count self =? 0)%Z; simpl; apply len_nonneg.
Qed.

(** When no worker raises, the total is the number of records. *)
Lemma insert_embeddings_total_all (self : MemoryDB)
    (embeddings : list embedding) (metadata : list Z)
    (runs : list (worker_run vector_bytes)) :
  (1 <= ingestion_thread_count self)%Z ->
  workers self embeddings metadata = Ok runs ->
  (forall r, In r runs -> raised r = false) ->
  fst (insert self embeddings metadata) = len embeddings.
Proof.
  intros Htc Hruns Hnone.
  destruct (@insert_embeddings_workers _ _ tobytes execute_reply
              self embeddings metadata Htc)
    as (ep & mp & runs' & _ & _ & Hr & _ & _ & _ & -> & _ & Heq).
  assert (runs' = runs) by congruence. subst runs'. simpl.
  apply Heq. intros i r e Hri _ Hraised.
  rewrite (Hnone r) in Hraised by (eapply nth_error_In; eauto).
  discriminate.
Qed.

(** C2. For every insert call: the workers are started whenever the thread
    count is at least 1; a worker whose try block raises puts 0 on the
    queue, so the total is the sum of what the other workers reported; the
    call returns (total, None); and an error is returned only when the
    thread count is 0, where the partition raises and no worker runs. *)
Theorem insert_embeddings_swallows_worker_errors (self : MemoryDB)
    (embeddings : list embedding) (metadata : list Z) :
  ((1 <= ingestion_thread_count self)%Z ->
   exists runs,
     workers self embeddings metadata = Ok runs /\
     len runs = ingestion_thread_count self) /\
  (forall runs,
      workers self embeddings metadata = Ok runs ->
      insert self embeddings metadata = (sumZ (map (@put _) runs), None) /\
      forall i r e,
        nth_error runs i = Some r -> outcome r = Raise e ->
        put r = 0%Z /\
        sumZ (map (@put _) runs)
        = (sumZ (map (@put _) (firstn i runs))
           + sumZ (map (@put _) (skipn (S i) runs)))%Z) /\
  (forall e,
      snd (insert self embeddings metadata) = Some e ->
      ingestion_thread_count self = 0%Z /\
      workers self embeddings metadata = Raise e).
Proof.
  split; [|split].
  - intros Htc.
    destruct (@insert_embeddings_workers _ _ tobytes execute_reply
                self embeddings metadata Htc)
      as (ep & mp & runs & _ & _ & Hr & Hl & _).
    exists runs. auto.
  - intros runs Hruns. split; [now apply insert_embeddings_total|].
    intros i r e Hi Hout.
    assert (Hput : put r = 0%Z).
    { unfold run_workers in Hruns.
      destruct (split_list_into_parts embeddings _) as [ep|];
        [|discriminate].
      destruct (split_list_into_parts metadata _) as [mp|];
        [|discriminate].
      cbn [bind] in Hruns.
      destruct (@for_each_In _ _ _ _ _ _ Hruns (nth_error_In _ _ Hi)) as (x & _ & Hx).
      unfold spawn in Hx.
      destruct (getitem ep x) as [ex|]; [|discriminate].
      destruct (getitem mp x) as [mx|]; [|discriminate].
      cbn [bind] in Hx. injection Hx as Hrx. subst r.
      eapply worker_raise. exact Hout. }
    split; [exact Hput|].
    rewrite (sumZ_map_skip (@put _) _ _ Hi), Hput. lia.
  - intros e He. pose proof He as He'.
    apply insert_embeddings_error in He'. destruct He' as [Htc ->].
    split; [exact Htc|].
    rewrite run_workers_nonpositive by lia. rewrite Htc. reflexivity.
Qed.
End Insert.

(** Three records for two threads, the server refusing worker 0: worker 0
    raises and counts for nothing, worker 1 counts its record. *)
Lemma insert_embeddings_swallows_worker_errors_witness :
  insert_embeddings as_bytes refusing_worker_0 (client standalone_config 2 1)
    [[1; 2]; [3; 4]; [5; 6]]%Z [7; 8; 9]%Z
  = (1%Z, None).
Proof.
  pose (self := client standalone_config 2 1).
  pose (embeddings := [[1; 2]; [3; 4]; [5; 6]]%Z).
  pose (metadata := [7; 8; 9]%Z).
  destruct (insert_embeddings_swallows_worker_errors
              as_bytes refusing_worker_0 self embeddings metadata)
    as (_ & Hswallow & _).
  pose (runs := map (worker_at as_bytes refusing_worker_0 self
                       [[[1; 2]; [3; 4]]; [[5; 6]]]%Z [[7; 8]; [9]]%Z)
                    [0; 1]%Z).
  destruct (Hswallow runs eq_refl) as (Htotal & Hzero).
  destruct (Hzero 0%nat _ (ConnectionError "connection reset")
              eq_refl eq_refl) as (_ & Hsum).
  change (insert_embeddings as_bytes refusing_worker_0 self embeddings metadata
          = (1%Z, None)).
  rewrite Htotal, Hsum. reflexivity.
Defined.

(** C1. One record and two threads, the server acknowledging everything:
    worker 1 gets the empty slice, its try block raises the unbound-variable
    error and it reports 0, yet the total is 1, the number of records. The
    total equals the number of records although a worker raised. *)
Theorem insert_embeddings_full_total_with_raised_worker :
  let self := client standalone_config 2 1 in
  let embeddings := [[1; 2]]%Z in
  let metadata := [7]%Z in
  exists runs,
    run_workers as_bytes accepting self embeddings metadata = Ok runs /\
    map (@outcome _) runs = [Ok 1%Z; Raise (UnboundLocalError "i")] /\
    map (@raised _) runs = [false; true] /\
    insert_embeddings as_bytes accepting self embeddings metadata
    = (len embeddings, None).
Proof.
  intros self embeddings metadata. eexists. split; [reflexivity|].
  repeat split; reflexivity.
Qed.

Section ShortInput.
Variables (embedding vector_bytes : Type).
Variable tobytes : embedding -> vector_bytes.
Variable execute_reply : Redis -> list (hset vector_bytes) -> option exn.

Local Abbreviation workers := (run_workers tobytes execute_reply).
Local Abbreviation insert := (insert_embeddings tobytes execute_reply).

(** C9 (amended). For every call where the thread count exceeds the number
    of records: some worker gets an empty slice; every worker with an empty
    slice raises the unbound-variable error of the post-loop count
    expression and reports 0; the returned error is None; and when no
    worker with a non-empty slice raises, the total equals the number of
    records, although workers have raised. *)
Theorem insert_embeddings_more_threads_than_records (self : MemoryDB)
    (embeddings : list embedding) (metadata : list Z) :
  (len embeddings < ingestion_thread_count self)%Z ->
  exists embedding_parts runs,
    split_list_into_parts embeddings (ingestion_thread_count self)
    = Ok embedding_parts /\
    workers self embeddings metadata = Ok runs /\
    (exists i r,
        nth_error embedding_parts i = Some [] /\ nth_error runs i = Some r) /\
    (forall i r,
        nth_error runs i = Some r -> nth_error embedding_parts i = Some [] ->
        outcome r = Raise (UnboundLocalError "i") /\ put r = 0%Z) /\
    snd (insert self embeddings metadata) = None /\
    ((forall i r e,
         nth_error runs i = Some r -> nth_error embedding_parts i = Some e ->
         e <> [] -> raised r = false) ->
     fst (insert self embeddings metadata) = len embeddings).
Proof.
  intros Hshort. pose proof (len_nonneg embeddings) as Hn.
  assert (Htc : (1 <= ingestion_thread_count self)%Z) by lia.
  destruct (@insert_embeddings_workers _ _ tobytes execute_reply
              self embeddings metadata Htc)
    as (ep & mp & runs & He & _ & Hr & Hlr & Hle & Hnth & Htot & _ & Heq).
  destruct (split_list_into_parts_props embeddings Htc)
    as (ep' & He' & _ & _ & Hsize & _).
  assert (ep' = ep) by congruence. subst ep'.
  exists ep, runs. split; [exact He|]. split; [exact Hr|].
  split; [|split; [|split]].
  - set (i := Z.to_nat (len embeddings)).
    destruct (nth_error ep i) as [e|] eqn:Ee;
      [|apply nth_error_None in Ee; unfold len in Hle; lia].
    destruct (nth_error runs i) as [r|] eqn:Er;
      [|apply nth_error_None in Er; unfold len in Hlr; lia].
    exists i, r. split; [|exact Er]. rewrite Ee. f_equal.
    apply len_nil_inv. rewrite (Hsize _ _ Ee).
    rewrite Z.div_small, Z.mod_small by lia.
    unfold i. rewrite Z2Nat.id by lia. rewrite Z.ltb_irrefl. reflexivity.
  - intros i r Hi Hei.
    destruct (Hnth _ _ Hi) as (e & md & Hei' & _ & ->).
    assert (e = []) by congruence. subst e. apply worker_empty.
  - now rewrite Htot.
  - intros Hgood. rewrite Htot. simpl. apply Heq.
    intros i r e Hi Hei Hraised.
    destruct e as [|x e]; [reflexivity|].
    rewrite (Hgood _ _ _ Hi Hei) in Hraised; [discriminate|].
    intros Hnil; discriminate Hnil.
Qed.
End ShortInput.

(** Two records for three threads and a server that acknowledges everything:
    worker 2 has the empty slice and raises, and the total is still 2. *)
Lemma insert_embeddings_more_threads_than_records_witness :
  (len [[1; 2]; [3; 4]]%Z < ingestion_thread_count (client standalone_config 3 1))%Z /\
  fst (insert_embeddings as_bytes accepting (client standalone_config 3 1)
         [[1; 2]; [3; 4]]%Z [7; 8]%Z) = 2%Z.
Proof.
  assert (Hshort : (len [[1; 2]; [3; 4]]%Z
                    < ingestion_thread_count (client standalone_config 3 1))%Z)
    by reflexivity.
  split; [exact Hshort|].
  destruct (insert_embeddings_more_threads_than_records
              as_bytes accepting (client standalone_config 3 1)
              [[1; 2]; [3; 4]]%Z [7; 8]%Z Hshort)
    as (ep & runs & He & Hr & _ & _ & _ & Hall).
  apply Hall. intros i r e Hi Hei Hne.
  vm_compute in He. injection He as <-.
  vm_compute in Hr. injection Hr as <-.
  destruct i as [|[|[|i]]]; simpl in Hi, Hei.
  - injection Hi as <-. reflexivity.
  - injection Hi as <-. reflexivity.
  - injection Hei as <-. now elim Hne.
  - destruct i; discriminate Hi.
Defined.

(** C9 as stated fails: with one record, two threads and a server that
    refuses every batch, the worker of the non-empty slice raises too and the
    total is 0, not 1. *)
Lemma insert_embeddings_more_threads_than_records_counterexample :
  ~ (forall (execute_reply : Redis -> list (hset (list Z)) -> option exn)
            (self : MemoryDB) (embeddings : list (list Z)) (metadata : list Z),
        (len embeddings < ingestion_thread_count self)%Z ->
        insert_embeddings as_bytes execute_reply self embeddings metadata
        = (len embeddings, None)).
Proof.
  intros H.
  specialize (H refusing (client standalone_config 2 1) [[1; 2]]%Z [7]%Z
                ltac:(reflexivity)).
  vm_compute in H. discriminate H.
Qed.

(** ** Where the pool comes from (C8) *)

Section Pool.
Variables (embedding vector_bytes : Type).
Variable tobytes : embedding -> vector_bytes.
Variable execute_reply : Redis -> list (hset vector_bytes) -> option exn.

(** Every worker's client is built on [self.conn_pool]. *)
Lemma run_workers_pool (self : MemoryDB) (embeddings : list embedding)
    (metadata : list Z) (runs : list (worker_run vector_bytes)) r :
  run_workers tobytes execute_reply self embeddings metadata = Ok runs ->
  In r runs ->
  connection_pool (run_conn r) = conn_pool self.
Proof.
  unfold run_workers. intros Hruns Hin.
  destruct (split_list_into_parts embeddings _) as [ep|]; [|discriminate].
  destruct (split_list_into_parts metadata _) as [mp|]; [|discriminate].
  cbn [bind] in Hruns.
  destruct (@for_each_In _ _ _ _ _ _ Hruns Hin) as (x & _ & Hx).
  unfold spawn in Hx.
  destruct (getitem ep x) as [ex|]; [|discriminate].
  destruct (getitem mp x) as [mx|]; [|discriminate].
  cbn [bind] in Hx. injection Hx as <-. now rewrite worker_conn.
Qed.

(** C8 (amended). In standalone mode (cmd set) get_client_pool returns a
    connection pool on the configured host and port, database 0, and after
    init every insert worker's client is built on that shared pool, not on a
    connection of its own. *)
Theorem get_client_pool_standalone (config : DbConfig) :
  topology config = Standalone ->
  get_client_pool config
  = Some {| pool_host := host config; pool_port := port config;
            pool_db := 0 |} /\
  (forall self embeddings metadata runs r,
      db_config self = config ->
      run_workers tobytes execute_reply (init self) embeddings metadata
      = Ok runs ->
      In r runs ->
      connection_pool (run_conn r)
      = Some {| pool_host := host config; pool_port := port config;
                pool_db := 0 |}).
Proof.
  unfold get_client_pool, topology. intros Hmode.
  destruct (cmd config) eqn:Ecmd; [|discriminate Hmode]. simpl.
  split; [reflexivity|].
  intros self embeddings metadata runs r Hcfg Hruns Hin.
  rewrite (@run_workers_pool _ _ _ _ _ Hruns Hin). simpl.
  unfold get_client_pool. rewrite Hcfg, Ecmd. reflexivity.
Qed.
End Pool.

(** In standalone mode the two workers of a call share the pool. *)
Lemma get_client_pool_standalone_witness :
  topology standalone_config = Standalone /\
  exists runs,
    run_workers as_bytes accepting (client standalone_config 2 1)
                [[1; 2]; [3; 4]]%Z [7; 8]%Z = Ok runs /\
    Forall (fun r =>
              connection_pool (run_conn r)
              = Some {| pool_host := "localhost"; pool_port := 6379;
                        pool_db := 0 |}) runs.
Proof.
  split; [reflexivity|].
  eexists. split; [reflexivity|].
  apply Forall_forall. intros r Hin.
  destruct (@get_client_pool_standalone _ _ as_bytes accepting
              standalone_config eq_refl) as (_ & H).
  exact (H (new_MemoryDB standalone_config
              (hnsw_case 2 1 (PyInt 16) (PyInt 200) PyNone))
           [[1; 2]; [3; 4]]%Z [7; 8]%Z _ r eq_refl eq_refl Hin).
Defined.

(** C8 as stated fails: the standalone configuration gets a pool. *)
Lemma get_client_pool_sharded_counterexample :
  ~ (forall config : DbConfig,
        get_client_pool config <> None <-> topology config = Sharded).
Proof.
  intros H. destruct (H standalone_config) as [H1 _].
  assert (Hs : topology standalone_config = Sharded)
    by (apply H1; discriminate).
  discriminate Hs.
Qed.

(** ** The convergence barrier (C4) *)

Section BarrierFacts.
Variables (world node : Type).
Variable condition : node -> world -> bool * world.
Variable sleep : Z -> world -> world.

Local Abbreviation wait := (wait_until condition sleep).
Local Abbreviation before := (world_before condition sleep).
Local Abbreviation answer := (answer_at condition sleep).

Lemma world_before_shift (interval : Z) (args : node) (w : world) (k : nat) :
  before interval args w (S k)
  = before interval args (sleep interval (snd (condition args w))) k.
Proof.
  induction k as [|k IH]; [reflexivity|].
  change (before interval args w (S (S k)))
    with (sleep interval
            (snd (condition args (before interval args w (S k))))).
  now rewrite IH.
Qed.

Lemma answer_at_shift (interval : Z) (args : node) (w : world) (k : nat) :
  answer interval args w (S k)
  = answer interval args (sleep interval (snd (condition args w))) k.
Proof. unfold answer_at. now rewrite world_before_shift. Qed.

(** Enough fuel: the loop ends at the first true answer. *)
Lemma wait_until_returns (interval : Z) (args : node) (n : nat) :
  forall w fuel,
    (forall k, (k < n)%nat -> answer interval args w k = false) ->
    answer interval args w n = true ->
    (n < fuel)%nat ->
    wait fuel interval args w
    = Some (polls interval n, snd (condition args (before interval args w n))).
Proof.
  induction n as [|n IH]; intros w fuel Hfalse Htrue Hfuel;
    (destruct fuel as [|fuel]; [lia|]).
  - unfold answer_at in Htrue. simpl in Htrue |- *.
    destruct (condition args w) as [b w1]. simpl in Htrue. subst b.
    reflexivity.
  - pose proof (Hfalse O ltac:(lia)) as H0. unfold answer_at in H0.
    simpl in H0. cbn [wait_until].
    rewrite world_before_shift.
    destruct (condition args w) as [b w1] eqn:Ec. simpl in H0. subst b.
    rewrite (IH (sleep interval w1) fuel).
    + reflexivity.
    + intros k Hk. specialize (Hfalse (S k) ltac:(lia)).
      rewrite answer_at_shift, Ec in Hfalse. exact Hfalse.
    + rewrite answer_at_shift, Ec in Htrue. exact Htrue.
    + lia.
Qed.

(** While every answer is false the loop is still running. *)
Lemma wait_until_running (interval : Z) (args : node) (fuel : nat) :
  forall w,
    (forall k, (k < fuel)%nat -> answer interval args w k = false) ->
    wait fuel interval args w = None.
Proof.
  induction fuel as [|fuel IH]; intros w Hfalse; [reflexivity|].
  pose proof (Hfalse O ltac:(lia)) as H0. unfold answer_at in H0.
  simpl in H0. cbn [wait_until].
  destruct (condition args w) as [b w1] eqn:Ec. simpl in H0. subst b.
  rewrite IH; [reflexivity|].
  intros k Hk. specialize (Hfalse (S k) ltac:(lia)).
  rewrite answer_at_shift, Ec in Hfalse. exact Hfalse.
Qed.

(** A return is a true answer, and the first one. *)
Lemma wait_until_returned (interval : Z) (args : node) (fuel : nat) :
  forall w tr w',
    wait fuel interval args w = Some (tr, w') ->
    exists n,
      (n < fuel)%nat /\
      tr = polls interval n /\
      answer interval args w n = true /\
      (forall k, (k < n)%nat -> answer interval args w k = false) /\
      w' = snd (condition args (before interval args w n)).
Proof.
  induction fuel as [|fuel IH]; intros w tr w' H; [discriminate|].
  cbn [wait_until] in H.
  destruct (condition args w) as [b w1] eqn:Ec. destruct b.
  - inversion H; subst. exists O. unfold answer_at. simpl. rewrite Ec.
    repeat split; auto; try lia.
  - destruct (wait fuel interval args (sleep interval w1))
      as [[tr1 w2]|] eqn:Er; [|discriminate].
    inversion H; subst.
    destruct (IH _ _ _ Er) as (n & Hn & Htr & Ht & Hf & Hw).
    exists (S n). rewrite answer_at_shift, world_before_shift, Ec. simpl.
    repeat split; auto; try lia.
    + now rewrite Htr.
    + intros [|k] Hk.
      * unfold answer_at. simpl. now rewrite Ec.
      * rewrite answer_at_shift, Ec. apply Hf. lia.
Qed.

Lemma evaluations_polls (interval : Z) (n : nat) :
  evaluations (polls interval n) = S n.
Proof.
  unfold evaluations. induction n as [|n IH]; [reflexivity|].
  simpl in *. now rewrite IH.
Qed.

Lemma sleeps_polls (interval : Z) (n : nat) :
  sleeps (polls interval n) = repeat interval n.
Proof.
  unfold sleeps. induction n as [|n IH]; [reflexivity|].
  simpl in *. now rewrite IH.
Qed.

(** C4. For every predicate and interval: (1) when wait_until returns, the
    evaluation it returned on answered true and every evaluation before it
    answered false, each followed by a sleep; (2) when the first n
    evaluations answer false and the next one true, the loop returns as
    soon as it may run n+1 turns and not before, after exactly n+1
    evaluations and n sleeps, each of the given interval, one between two
    consecutive evaluations; (3) when every evaluation answers false, no
    number of turns is enough: the loop never returns. *)
Theorem wait_until_polls_until_true (interval : Z) (args : node) (w : world) :
  (forall fuel tr w',
      wait fuel interval args w = Some (tr, w') ->
      exists n,
        tr = polls interval n /\
        answer interval args w n = true /\
        (forall k, (k < n)%nat -> answer interval args w k = false)) /\
  (forall n,
      (forall k, (k < n)%nat -> answer interval args w k = false) ->
      answer interval args w n = true ->
      (forall fuel,
          (n < fuel)%nat ->
          wait fuel interval args w
          = Some (polls interval n,
                  snd (condition args (before interval args w n)))) /\
      (forall fuel, (fuel <= n)%nat -> wait fuel interval args w = None) /\
      evaluations (polls interval n) = S n /\
      sleeps (polls interval n) = repeat interval n) /\
  ((forall k, answer interval args w k = false) ->
   forall fuel, wait fuel interval args w = None).
Proof.
  split; [|split].
  - intros fuel tr w' H.
    destruct (wait_until_returned _ _ _ _ H) as (n & _ & Htr & Ht & Hf & _).
    exists n. auto.
  - intros n Hfalse Htrue. split; [|split; [|split]].
    + intros fuel Hfuel. now apply wait_until_returns.
    + intros fuel Hfuel. apply wait_until_running.
      intros k Hk. apply Hfalse. lia.
    + apply evaluations_polls.
    + apply sleeps_polls.
  - intros Hnever fuel. apply wait_until_running. intros k _. apply Hnever.
Qed.
End BarrierFacts.

(** A node drained at time 9, polled every 3 seconds from time 0: three
    false answers, then a true one. *)
Lemma wait_until_polls_until_true_witness :
  wait_until drained_at_9 clock_sleep 4 3 tt 0%Z
  = Some ([Evaluated false; Slept 3; Evaluated false; Slept 3;
           Evaluated false; Slept 3; Evaluated true]%Z, 9%Z) /\
  wait_until drained_at_9 clock_sleep 3 3 tt 0%Z = None.
Proof.
  destruct (wait_until_polls_until_true drained_at_9 clock_sleep 3 tt 0%Z)
    as (_ & H & _).
  destruct (H 3%nat) as (Hret & Hnot & _).
  - intros k Hk. destruct k as [|[|[|k]]]; [reflexivity..|lia].
  - reflexivity.
  - split.
    + apply (Hret 4%nat). lia.
    + apply (Hnot 3%nat). lia.
Defined.

Example wait_until_never_idle :
  forall fuel, wait_until never_idle clock_sleep fuel 5 tt 0%Z = None.
Proof.
  intros fuel. apply wait_until_running.
  intros k _. reflexivity.
Qed.

(** ** Index provisioning (C5, C7) *)

(** C7. For every configuration, each of M, EF_CONSTRUCTION and EF_RUNTIME is
    a key of the vector field's parameters exactly when its configured value
    is truthy (neither None nor zero), and then with the configured value; a
    falsy one is no key at all. TYPE, DIM and DISTANCE_METRIC are always
    there, and this dictionary is the one the vector field of the schema
    carries. *)
Theorem vector_parameters_hyperparameters (vector_dimensions : Z)
    (self : MemoryDB) :
  let ip := index_param (case_config self) in
  let sp := search_param (case_config self) in
  let vp := vector_parameters vector_dimensions ip sp in
  dict_get vp "M" = (if truthy (m ip) then Some (m ip) else None) /\
  dict_get vp "EF_CONSTRUCTION"
  = (if truthy (ef_construction ip) then Some (ef_construction ip) else None) /\
  dict_get vp "EF_RUNTIME"
  = (if truthy (ef_runtime sp) then Some (ef_runtime sp) else None) /\
  dict_has vp "M" = truthy (m ip) /\
  dict_has vp "EF_CONSTRUCTION" = truthy (ef_construction ip) /\
  dict_has vp "EF_RUNTIME" = truthy (ef_runtime sp) /\
  dict_get vp "TYPE" = Some (PyStr "FLOAT32") /\
  dict_get vp "DIM" = Some (PyInt vector_dimensions) /\
  dict_get vp "DISTANCE_METRIC" = Some (metric ip) /\
  index_schema vector_dimensions self
  = [TagField "id"; NumericField "metadata"; VectorField "vector" "HNSW" vp].
Proof.
  intros ip sp vp. subst vp ip sp.
  unfold index_schema, vector_parameters, dict_has.
  destruct (truthy (m _)), (truthy (ef_construction _)),
    (truthy (ef_runtime _)); repeat split; reflexivity.
Qed.

Example vector_parameters_m_only :
  vector_parameters 128
    {| metric := PyStr "COSINE"; m := PyInt 16; ef_construction := PyInt 0 |}
    {| ef_runtime := PyNone |}
  = [("TYPE", PyStr "FLOAT32"); ("DIM", PyInt 128);
     ("DISTANCE_METRIC", PyStr "COSINE"); ("M", PyInt 16)]%string.
Proof. reflexivity. Qed.

Section SchemaFacts.
Variable server : Type.
Variable ft_info : string -> server -> result unit.
Variable ft_create :
  string -> list field -> IndexDefinition -> server -> result unit * server.

Local Abbreviation provision := (make_index ft_info ft_create).
Local Abbreviation provision_twice := (make_index_twice ft_info ft_create).

Lemma creations_app (c : connection server) (s : server) (l : list command) :
  creations {| srv := s; issued := issued c ++ l |}
  = (creations c + List.length (filter is_create l))%nat.
Proof. unfold creations. simpl. now rewrite filter_app, length_app. Qed.

(** A probe that succeeds: nothing but the probe is sent. *)
Lemma make_index_found (self : MemoryDB) (vector_dimensions : Z)
    (c : connection server) :
  ft_info INDEX_NAME (srv c) = Ok tt ->
  provision self vector_dimensions c
  = (Ok tt, {| srv := srv c; issued := issued c ++ [FT_INFO INDEX_NAME] |}).
Proof. intros H. unfold make_index, info. now rewrite H. Qed.

(** A probe that fails, for whatever reason: the create command follows. *)
Lemma make_index_missing (self : MemoryDB) (vector_dimensions : Z)
    (c : connection server) (e : exn) :
  ft_info INDEX_NAME (srv c) = Raise e ->
  provision self vector_dimensions c
  = (fst (ft_create INDEX_NAME (index_schema vector_dimensions self)
                    {| index_type := HASH |} (srv c)),
     {| srv := snd (ft_create INDEX_NAME (index_schema vector_dimensions self)
                              {| index_type := HASH |} (srv c));
        issued := issued c
                  ++ [FT_INFO INDEX_NAME;
                      FT_CREATE INDEX_NAME
                                (index_schema vector_dimensions self)
                                {| index_type := HASH |}] |}).
Proof.
  intros H. unfold make_index, info, create_index. rewrite H. simpl.
  destruct (ft_create _ _ _ _) as [r s']. simpl.
  now rewrite <- app_assoc.
Qed.

(** The store keeps what it created: after a create command that did not
    fail, the metadata query on the same index succeeds. *)
Hypothesis created_is_found :
  forall index schema definition s s',
    ft_create index schema definition s = (Ok tt, s') ->
    ft_info index s' = Ok tt.

Lemma make_index_provides (self : MemoryDB) (vector_dimensions : Z)
    (c c1 : connection server) :
  provision self vector_dimensions c = (Ok tt, c1) ->
  ft_info INDEX_NAME (srv c1) = Ok tt.
Proof.
  destruct (ft_info INDEX_NAME (srv c)) as [[]|e] eqn:Ei.
  - rewrite make_index_found by exact Ei. intros H. inversion H; subst.
    exact Ei.
  - rewrite (make_index_missing _ _ _ Ei).
    destruct (ft_create _ _ _ _) as [r s'] eqn:Ec. simpl.
    intros H. inversion H; subst. simpl. eapply created_is_found. exact Ec.
Qed.

End SchemaFacts.

Lemma store_created_is_found :
  forall index schema definition s s',
    store_create index schema definition s = (Ok tt, s') ->
    store_info index s' = Ok tt.
Proof.
  intros index schema definition s s'. unfold store_create, store_info.
  destruct (reachable s); simpl; [|discriminate].
  destruct (stored_index s); [discriminate|].
  intros H. inversion H; subst. reflexivity.
Qed.



Example make_index_unreachable :
  issued (snd (make_index store_info store_create
                 (client standalone_config 2 1) 128
                 (fresh_connection unreachable_store)))
  = [FT_INFO "index";
     FT_CREATE "index" (index_schema 128 (client standalone_config 2 1))
               {| index_type := HASH |}].
Proof. reflexivity. Qed.

(** ** The query builder (C6, C10) *)

Lemma str_append_assoc (a b c : string) :
  ((a ++ b) ++ c = a ++ (b ++ c))%string.
Proof. induction a as [|x a IH]; simpl; [reflexivity|now rewrite IH]. Qed.

Lemma str_cons_neq (c : ascii) (s : string) : String c s <> s.
Proof.
  intros H. apply (f_equal String.length) in H. simpl in H. lia.
Qed.

Lemma str_drop_2 (v T : string) :
  (2 <= String.length v)%nat ->
  str_drop 2 v = T <-> exists c1 c2, v = String c1 (String c2 T).
Proof.
  intros Hlen. destruct v as [|c1 [|c2 v]]; simpl in Hlen; try lia.
  simpl. split.
  - intros ->. eauto.
  - intros (d1 & d2 & H). now inversion H.
Qed.

(** With a filter whose ["metadata"] entry is the string [v], the query text
    carries [v] without its first two characters. *)
Lemma search_query_filtered (self : MemoryDB) (k : Z) (filters : dict pyval)
    (v : string) :
  dict_get filters "metadata" = Some (PyStr v) ->
  search_query self k (Some filters)
  = Ok (let query_obj :=
          paging
            (new_Query ("@metadata:[" ++ str_drop 2 v ++ " +inf]=>[KNN "
                          ++ str k ++ " @vector $vec "
                          ++ ef_runtime_str self ++ "]")%string) 0 k in
        if no_content self then set_no_content query_obj
        else set_return_fields query_obj ["id"%string]).
Proof.
  intros H. destruct filters as [|p rest]; [discriminate H|].
  unfold search_query. cbv beta iota. rewrite H. reflexivity.
Qed.

Section SearchFacts.
Variables (vector vector_bytes : Type).
Variable tobytes : vector -> vector_bytes.
Variable ft_search : string -> Query -> vector_bytes -> result (list Document).
Variable int : string -> result Z.

(** C6. For every query vector, every k and every filter whose metadata
    entry is ">=T": the query built is the hybrid query with the numeric
    range [T, +inf] on the metadata field as pre-filter and a KNN clause
    for k results on the vector field, paged from offset 0 for k results;
    this query is what the search command receives, and the identifiers of
    all the documents the store returns are handed back in order, with no
    filtering after the search. *)
Theorem search_embedding_range_filter (self : MemoryDB) (query : vector)
    (k : Z) (filters : dict pyval) (T : string) :
  dict_get filters "metadata" = Some (PyStr (">=" ++ T)) ->
  exists query_obj,
    search_query self k (Some filters) = Ok query_obj /\
    query_string query_obj
    = hybrid_query (NumericRange "metadata" T "+inf")
                   {| knn_k := k; knn_field := "vector"; knn_param := "vec";
                      knn_attributes := ef_runtime_str self |} /\
    paging_offset query_obj = 0%Z /\
    paging_num query_obj = k /\
    (conn self <> None ->
     search_embedding tobytes ft_search int self query k (Some filters)
     = (docs <- ft_search INDEX_NAME query_obj (tobytes query) ;;
        for_each (fun doc => int (doc_id doc)) docs)).
Proof.
  intros H. eexists. split; [apply (search_query_filtered self k _ H)|].
  cbv zeta. split; [|split; [|split]].
  - unfold hybrid_query, render_prefilter, render_knn.
    destruct (no_content self); simpl;
      now rewrite str_append_assoc.
  - now destruct (no_content self).
  - now destruct (no_content self).
  - intros Hconn. unfold search_embedding.
    destruct (conn self); [|now elim Hconn].
    rewrite (search_query_filtered self k _ H). reflexivity.
Qed.
End SearchFacts.

(** The filter ">=10000" with k = 10 on a client without EF_RUNTIME. *)
Lemma search_embedding_range_filter_witness :
  exists query_obj,
    search_query (client standalone_config 2 1) 10
                 (Some [("metadata", PyStr ">=10000")]%string) = Ok query_obj /\
    query_string query_obj
    = "@metadata:[10000 +inf]=>[KNN 10 @vector $vec ]"%string /\
    paging_offset query_obj = 0%Z /\
    paging_num query_obj = 10%Z /\
    search_embedding as_bytes two_documents decimal
      (client standalone_config 2 1) [1; 2]%Z 10
      (Some [("metadata", PyStr ">=10000")]%string)
    = Ok [12; 7]%Z.
Proof.
  destruct (@search_embedding_range_filter _ _ as_bytes two_documents decimal
              (client standalone_config 2 1) [1; 2]%Z 10
              [("metadata", PyStr ">=10000")]%string "10000"%string eq_refl)
    as (q & Hq & Hs & Ho & Hn & Hsearch).
  exists q. split; [exact Hq|]. split; [exact Hs|].
  split; [exact Ho|]. split; [exact Hn|].
  etransitivity; [apply Hsearch; discriminate|].
  vm_compute in Hq. injection Hq as <-. reflexivity.
Defined.

(** C10. For every non-empty filters argument whose metadata entry is a
    string v, the threshold in the query text is v without its first two
    characters, whatever they are: ">=T" gives T, ">= T" gives T with the
    space in front (which is not T), and for v of two characters or more the
    threshold is T exactly when v is two characters followed by T. *)
Theorem search_query_threshold (self : MemoryDB) (k : Z)
    (filters : dict pyval) (v : string) :
  dict_get filters "metadata" = Some (PyStr v) ->
  filters <> [] /\
  (exists query_obj,
      search_query self k (Some filters) = Ok query_obj /\
      query_string query_obj
      = ("@metadata:[" ++ str_drop 2 v ++ " +inf]=>[KNN " ++ str k
           ++ " @vector $vec " ++ ef_runtime_str self ++ "]")%string) /\
  (forall c1 c2 T, v = String c1 (String c2 T) -> str_drop 2 v = T) /\
  (forall T, v = (">=" ++ T)%string -> str_drop 2 v = T) /\
  (forall T, v = (">= " ++ T)%string ->
             str_drop 2 v = (" " ++ T)%string /\ str_drop 2 v <> T) /\
  (forall T, (2 <= String.length v)%nat ->
             str_drop 2 v = T <-> exists c1 c2, v = String c1 (String c2 T)).
Proof.
  intros H. split; [|split; [|split; [|split; [|split]]]].
  - intros ->. discriminate H.
  - eexists. split; [apply (search_query_filtered self k _ H)|].
    cbv zeta. now destruct (no_content self).
  - intros c1 c2 T ->. reflexivity.
  - intros T ->. reflexivity.
  - intros T ->. simpl. split; [reflexivity|apply str_cons_neq].
  - intros T. apply str_drop_2.
Qed.

(** The filter "> 500": the threshold is "500" as well, and with ">= 500"
    it is " 500". *)
Lemma search_query_threshold_witness :
  (exists query_obj,
      search_query (client standalone_config 2 1) 10
                   (Some [("metadata", PyStr "> 500")]%string) = Ok query_obj /\
      query_string query_obj
      = "@metadata:[500 +inf]=>[KNN 10 @vector $vec ]"%string) /\
  str_drop 2 ">= 500"%string = " 500"%string.
Proof.
  destruct (@search_query_threshold (client standalone_config 2 1) 10
              [("metadata", PyStr "> 500")]%string "> 500"%string eq_refl)
    as (_ & Hq & _).
  split; [exact Hq|reflexivity].
Defined.

Example search_query_no_filter :
  option_map
    (fun q => query_string q)
    (match search_query
             (init (new_MemoryDB standalone_config
                      (hnsw_case 2 1 (PyInt 16) (PyInt 200) (PyInt 64))))
             5 None with
     | Ok q => Some q
     | Raise _ => None
     end)
  = Some "*=>[KNN 5 @vector $vec EF_RUNTIME 64]"%string.
Proof. reflexivity. Qed.

Example search_query_no_metadata_key :
  search_query (client standalone_config 2 1) 10
               (Some [("id", PyStr ">=3")]%string)
  = Raise TypeError.
Proof. reflexivity. Qed.

(** * Further properties of the client *)

(** ** Partition and thread count at the edges *)

(** X1. For every list: with num_parts = 0 split_list_into_parts raises
    ZeroDivisionError, and with a negative num_parts it returns the empty
    list of slices, so the elements are in no slice. *)
Theorem split_list_into_parts_nonpositive {A} (lst : list A) (num_parts : Z) :
  (num_parts <= 0)%Z ->
  split_list_into_parts lst num_parts
  = if (num_parts =? 0)%Z then Raise ZeroDivisionError else Ok [].
Proof.
  intros Hk. unfold split_list_into_parts, floordiv, pymod.
  destruct (Z.eqb_spec num_parts 0) as [E|NE]; [reflexivity|].
  cbn [bind]. unfold part_sizes, range.
  replace (Z.to_nat num_parts) with O by lia. reflexivity.
Qed.

Lemma split_list_into_parts_nonpositive_witness :
  (-3 <= 0)%Z /\ split_list_into_parts [10; 11; 12]%Z (-3) = Ok [].
Proof.
  split; [lia|].
  apply (@split_list_into_parts_nonpositive Z [10; 11; 12]%Z (-3)). lia.
Defined.

Section InsertEdges.
Variables (embedding vector_bytes : Type).
Variable tobytes : embedding -> vector_bytes.
Variable execute_reply : Redis -> list (hset vector_bytes) -> option exn.

Local Abbreviation worker := (insert_embedding_batch tobytes execute_reply).
Local Abbreviation workers := (run_workers tobytes execute_reply).
Local Abbreviation insert := (insert_embeddings tobytes execute_reply).

(** Every run of a call is the run of [insert_embedding_batch] on some
    connection and slices. *)
Lemma run_workers_In (self : MemoryDB) (embeddings : list embedding)
    (metadata : list Z) (runs : list (worker_run vector_bytes)) r :
  workers self embeddings metadata = Ok runs ->
  In r runs ->
  exists conn e md, r = worker self conn e md.
Proof.
  unfold run_workers. intros Hruns Hin.
  destruct (split_list_into_parts embeddings _) as [ep|]; [|discriminate].
  destruct (split_list_into_parts metadata _) as [mp|]; [|discriminate].
  cbn [bind] in Hruns.
  destruct (@for_each_In _ _ _ _ _ _ Hruns Hin) as (x & _ & Hx).
  unfold spawn in Hx.
  destruct (getitem ep x) as [ex|]; [|discriminate].
  destruct (getitem mp x) as [mx|]; [|discriminate].
  cbn [bind] in Hx. injection Hx as <-. eauto.
Qed.

Lemma worker_put_nonneg (self : MemoryDB) (conn : Redis)
    (embeddings : list embedding) (metadata : list Z) :
  (0 <= put (worker self conn embeddings metadata))%Z.
Proof.
  destruct (outcome (worker self conn embeddings metadata)) as [n|e] eqn:E.
  - apply worker_ok in E. destruct E as (-> & _). apply len_nonneg.
  - apply worker_raise in E. rewrite E. lia.
Qed.

(** X2. For every input, with a thread count of 0 insert_embeddings returns
    (0, ZeroDivisionError) and with a negative thread count it returns
    (0, None); in both cases no worker runs, so nothing is written. *)
Theorem insert_embeddings_nonpositive_threads (self : MemoryDB)
    (embeddings : list embedding) (metadata : list Z) :
  (ingestion_thread_count self <= 0)%Z ->
  insert self embeddings metadata
  = (0%Z, if (ingestion_thread_count self =? 0)%Z
          then Some ZeroDivisionError else None) /\
  (forall runs, workers self embeddings metadata = Ok runs -> runs = []).
Proof.
  intros Htc. unfold insert_embeddings.
  rewrite run_workers_nonpositive by exact Htc.
  destruct (ingestion_thread_count self =? 0)%Z.
  - split; [reflexivity|]. intros runs H. discriminate H.
  - split; [reflexivity|]. intros runs H. now inversion H.
Qed.

(** X3. For every input, thread count and server behaviour, the count that
    insert_embeddings returns lies between 0 and the number of embeddings. *)
Theorem insert_embeddings_total_bounds (self : MemoryDB)
    (embeddings : list embedding) (metadata : list Z) :
  (0 <= fst (insert self embeddings metadata) <= len embeddings)%Z.
Proof.
  split; [|apply insert_embeddings_total_le].
  unfold insert_embeddings.
  destruct (workers self embeddings metadata) as [runs|e] eqn:Hr;
    [|simpl; lia].
  rewrite drain_sumZ. simpl. apply sumZ_nonneg.
  apply Forall_map, Forall_forall. intros r Hin.
  destruct (@run_workers_In _ _ _ _ _ Hr Hin) as (conn & e & md & ->).
  apply worker_put_nonneg.
Qed.

(** X4. For a thread count of at least 1, the total equals the number of
    embeddings exactly when every worker that raised had an empty slice. *)
Theorem insert_embeddings_total_full_iff (self : MemoryDB)
    (embeddings : list embedding) (metadata : list Z) :
  (1 <= ingestion_thread_count self)%Z ->
  exists embedding_parts runs,
    split_list_into_parts embeddings (ingestion_thread_count self)
    = Ok embedding_parts /\
    workers self embeddings metadata = Ok runs /\
    (fst (insert self embeddings metadata) = len embeddings <->
     forall i r e,
       nth_error runs i = Some r -> nth_error embedding_parts i = Some e ->
       raised r = true -> e = []).
Proof.
  intros Htc.
  destruct (@insert_embeddings_workers _ _ tobytes execute_reply
              self embeddings metadata Htc)
    as (ep & mp & runs & He & _ & Hr & _ & _ & _ & Htot & _ & Heq).
  exists ep, runs. rewrite Htot. auto.
Qed.

(** X5. The total does not depend on the order in which the workers finish:
    whatever the order of their counts on the result queue, draining it
    gives the count insert_embeddings returns. *)
Theorem insert_embeddings_any_completion_order (self : MemoryDB)
    (embeddings : list embedding) (metadata : list Z)
    (runs : list (worker_run vector_bytes)) (result_queue : list Z) :
  workers self embeddings metadata = Ok runs ->
  Permutation result_queue (map (@put _) runs) ->
  insert self embeddings metadata = (drain result_queue 0, None).
Proof.
  intros Hr HP. unfold insert_embeddings. rewrite Hr.
  now rewrite (drain_Permutation 0 HP).
Qed.
End InsertEdges.

Lemma insert_embeddings_nonpositive_threads_witness :
  insert_embeddings as_bytes accepting (client standalone_config (-1) 1)
    [[1; 2]; [3; 4]]%Z [7; 8]%Z = (0%Z, None) /\
  insert_embeddings as_bytes accepting (client standalone_config 0 1)
    [[1; 2]; [3; 4]]%Z [7; 8]%Z = (0%Z, Some ZeroDivisionError).
Proof.
  split.
  - apply (insert_embeddings_nonpositive_threads as_bytes accepting
             (client standalone_config (-1) 1)). simpl. lia.
  - apply (insert_embeddings_nonpositive_threads as_bytes accepting
             (client standalone_config 0 1)). simpl. lia.
Defined.

Lemma insert_embeddings_total_full_iff_witness :
  fst (insert_embeddings as_bytes accepting (client standalone_config 2 1)
         [[1; 2]; [3; 4]; [5; 6]]%Z [7; 8; 9]%Z) = 3%Z.
Proof.
  destruct (insert_embeddings_total_full_iff as_bytes accepting
              (client standalone_config 2 1)
              [[1; 2]; [3; 4]; [5; 6]]%Z [7; 8; 9]%Z ltac:(simpl; lia))
    as (ep & runs & He & Hr & Hiff).
  apply Hiff. intros i r e Hi Hei Hraised.
  vm_compute in Hr. injection Hr as <-.
  destruct i as [|[|i]]; simpl in Hi.
  - injection Hi as <-. discriminate Hraised.
  - injection Hi as <-. discriminate Hraised.
  - destruct i; discriminate Hi.
Defined.

Lemma insert_embeddings_any_completion_order_witness :
  insert_embeddings as_bytes accepting (client standalone_config 3 1)
    [[1; 2]; [3; 4]; [5; 6]; [7; 8]]%Z [7; 8; 9; 10]%Z
  = (drain [1; 2; 1]%Z 0, None).
Proof.
  apply (insert_embeddings_any_completion_order as_bytes accepting
           (client standalone_config 3 1)
           [[1; 2]; [3; 4]; [5; 6]; [7; 8]]%Z [7; 8; 9; 10]%Z
           (runs := map (worker_at as_bytes accepting
                           (client standalone_config 3 1)
                           [[[1; 2]; [3; 4]]; [[5; 6]]; [[7; 8]]]%Z
                           [[7; 8]; [9]; [10]]%Z) [0; 1; 2]%Z)).
  - reflexivity.
  - simpl. apply perm_swap.
Defined.

(** ** What a worker writes *)

Lemma mod_succ (i b : Z) :
  (1 <= b)%Z ->
  ((i + 1) mod b
   = if (i mod b =? b - 1) then 0 else i mod b + 1)%Z.
Proof.
  intros Hb. pose proof (Z.mod_pos_bound i b ltac:(lia)) as Hr.
  pose proof (Z.div_mod i b ltac:(lia)) as Hd.
  destruct (Z.eqb_spec (i mod b) (b - 1)) as [E|NE].
  - symmetry. apply (Z.mod_unique (i + 1) b (i / b + 1) 0); lia.
  - symmetry. apply (Z.mod_unique (i + 1) b (i / b) (i mod b + 1)); lia.
Qed.

Lemma skipn_nth_cons {X} (l : list X) (k : nat) (x : X) :
  nth_error l k = Some x -> skipn k l = x :: skipn (S k) l.
Proof.
  revert k. induction l as [|a l IH]; intros [|k] H; try discriminate.
  - inversion H. reflexivity.
  - simpl in H. simpl. now apply IH.
Qed.

Section WorkerWrites.
Variables (embedding vector_bytes : Type).
Variable tobytes : embedding -> vector_bytes.
Variable execute_reply : Redis -> list (hset vector_bytes) -> option exn.

Local Abbreviation worker := (insert_embedding_batch tobytes execute_reply).
Local Abbreviation loop := (batch_loop tobytes execute_reply).

(** The loop on a server that acknowledges every batch, with enough
    metadata: the acknowledged batches are full, the buffer holds the rest,
    and together they are the commands of the slice in order. *)
Lemma batch_loop_accepting (self : MemoryDB) (conn : Redis)
    (metadata : list Z) (rest : list embedding) :
  (1 <= insert_batch_size self)%Z ->
  (forall batch, execute_reply conn batch = None) ->
  forall i bound pipe,
    (0 <= i)%Z -> (i + len rest <= len metadata)%Z ->
    Forall (fun batch => len batch = insert_batch_size self) (sent pipe) ->
    len (command_stack pipe) = (i mod insert_batch_size self)%Z ->
    exists pipe',
      loop self conn metadata i rest bound pipe
      = (Ok (match rest with
             | [] => bound
             | _ :: _ => Some (i + len rest - 1)%Z
             end), pipe') /\
      List.concat (sent pipe') ++ command_stack pipe'
      = List.concat (sent pipe) ++ command_stack pipe
        ++ records tobytes rest (skipn (Z.to_nat i) metadata) /\
      Forall (fun batch => len batch = insert_batch_size self) (sent pipe') /\
      len (command_stack pipe') = ((i + len rest) mod insert_batch_size self)%Z.
Proof.
  intros Hb Hacc. induction rest as [|e rest IH];
    intros i bound pipe Hi Hfit Hfull Hstack.
  - exists pipe. split; [reflexivity|]. unfold records. simpl.
    rewrite app_nil_r. repeat split; auto.
    rewrite Hstack. f_equal. unfold len. simpl. lia.
  - assert (Hlen : len (e :: rest) = (len rest + 1)%Z)
      by (unfold len; simpl List.length; lia).
    rewrite Hlen in Hfit. pose proof (len_nonneg rest) as Hnr.
    destruct (nth_error metadata (Z.to_nat i)) as [key|] eqn:Ek;
      [|apply nth_error_None in Ek; unfold len in Hfit; lia].
    cbn [batch_loop]. unfold io_bind, io_lift, pipe_hset, getitem, pymod.
    rewrite Ek.
    destruct (Z.eqb_spec (insert_batch_size self) 0) as [E0|_]; [lia|].
    set (c := {| hset_name := key; hset_id := str key; hset_metadata := key;
                 hset_vector := tobytes e |}).
    pose proof (mod_succ i Hb) as Hmod.
    assert (Hrec : records tobytes (e :: rest) (skipn (Z.to_nat i) metadata)
                   = c :: records tobytes rest
                            (skipn (Z.to_nat (i + 1)) metadata)).
    { rewrite (skipn_nth_cons _ _ Ek). unfold records. simpl.
      replace (Z.to_nat (i + 1)) with (S (Z.to_nat i)) by lia. reflexivity. }
    destruct (Z.eqb_spec ((i + 1) mod insert_batch_size self) 0) as [Ef|Enf].
    + (* the buffer is full and is sent *)
      unfold pipe_execute. cbn [command_stack sent].
      destruct (command_stack pipe ++ [c]) as [|c0 st] eqn:Est;
        [symmetry in Est; now apply app_cons_not_nil in Est|].
      rewrite <- Est, Hacc.
      edestruct (IH (i + 1)%Z (Some i)
                   {| command_stack := [];
                      sent := sent pipe ++ [command_stack pipe ++ [c]] |})
        as (pipe' & Hrun & Hcat & Hfull' & Hstack').
      * lia.
      * lia.
      * cbn [sent]. apply Forall_app. split; [exact Hfull|].
        constructor; [|constructor]. unfold len. rewrite length_app. simpl.
        unfold len in Hstack.
        destruct (Z.eqb_spec (i mod insert_batch_size self)
                             (insert_batch_size self - 1)); lia.
      * cbn [command_stack]. rewrite Ef. reflexivity.
      * exists pipe'. rewrite Hrun. split.
        { f_equal. f_equal. rewrite Hlen. clear.
          destruct rest; [change (len (@nil embedding)) with 0%Z|];
            f_equal; lia. }
        split; [|split].
        { rewrite Hcat. cbn [sent command_stack]. rewrite Hrec.
          rewrite concat_app. simpl. rewrite !app_nil_r, <- !app_assoc.
          reflexivity. }
        { exact Hfull'. }
        { rewrite Hstack', Hlen. f_equal. lia. }
    + (* the command stays in the buffer *)
      unfold io_ret.
      edestruct (IH (i + 1)%Z (Some i)
                   {| command_stack := command_stack pipe ++ [c];
                      sent := sent pipe |})
        as (pipe' & Hrun & Hcat & Hfull' & Hstack').
      * lia.
      * lia.
      * exact Hfull.
      * cbn [command_stack]. unfold len. rewrite length_app. simpl.
        unfold len in Hstack.
        destruct (Z.eqb_spec (i mod insert_batch_size self)
                             (insert_batch_size self - 1)); lia.
      * exists pipe'. rewrite Hrun. split.
        { f_equal. f_equal. rewrite Hlen. clear.
          destruct rest; [change (len (@nil embedding)) with 0%Z|];
            f_equal; lia. }
        split; [|split].
        { rewrite Hcat. cbn [sent command_stack]. rewrite Hrec.
          rewrite <- !app_assoc. reflexivity. }
        { exact Hfull'. }
        { rewrite Hstack', Hlen. f_equal. lia. }
Qed.
End WorkerWrites.

Lemma firstn_concat_app {X} (l1 l2 l : list X) :
  l1 ++ l2 = l -> l1 = firstn (List.length l1) l.
Proof.
  intros <-. rewrite firstn_app, Nat.sub_diag, firstn_all. simpl.
  now rewrite app_nil_r.
Qed.

Lemma exists_smaller (l1 : list Z) :
  forall l2,
    List.length l1 = List.length l2 -> (sumZ l1 < sumZ l2)%Z ->
    exists i a b,
      nth_error l1 i = Some a /\ nth_error l2 i = Some b /\ (a < b)%Z.
Proof.
  induction l1 as [|a l1 IH]; intros [|b l2] Hlen Hsum; simpl in *;
    try discriminate; try lia.
  destruct (Z_lt_le_dec a b) as [Hlt|Hge].
  - exists O, a, b. auto.
  - destruct (IH l2 ltac:(lia) ltac:(lia)) as (i & x & y & H1 & H2 & H3).
    exists (S i), x, y. auto.
Qed.

Section WorkerFacts.
Variables (embedding vector_bytes : Type).
Variable tobytes : embedding -> vector_bytes.
Variable execute_reply : Redis -> list (hset vector_bytes) -> option exn.

Local Abbreviation worker := (insert_embedding_batch tobytes execute_reply).
Local Abbreviation loop := (batch_loop tobytes execute_reply).
Local Abbreviation workers := (run_workers tobytes execute_reply).
Local Abbreviation insert := (insert_embeddings tobytes execute_reply).

(** The end of the [try] on a pipeline whose acknowledged batches are full:
    the last flush sends what is left in the buffer. *)
Lemma pipe_execute_last (self : MemoryDB) (conn : Redis)
    (pipe : pipeline vector_bytes) (all : list (hset vector_bytes)) :
  (1 <= insert_batch_size self)%Z ->
  (forall batch, execute_reply conn batch = None) ->
  List.concat (sent pipe) ++ command_stack pipe = all ->
  Forall (fun batch => len batch = insert_batch_size self) (sent pipe) ->
  (0 <= len (command_stack pipe) < insert_batch_size self)%Z ->
  exists pipe',
    pipe_execute execute_reply conn pipe = (Ok tt, pipe') /\
    List.concat (sent pipe') = all /\
    (forall j batch,
        nth_error (sent pipe') j = Some batch ->
        (1 <= len batch <= insert_batch_size self)%Z /\
        ((S j < List.length (sent pipe'))%nat ->
         len batch = insert_batch_size self)).
Proof.
  intros Hb Hacc Hcat Hfull Hstack. unfold pipe_execute.
  destruct (command_stack pipe) as [|c st] eqn:Est.
  - exists pipe. split; [reflexivity|]. rewrite app_nil_r in Hcat.
    split; [exact Hcat|]. intros j batch Hj.
    pose proof (proj1 (Forall_forall _ _) Hfull _ (nth_error_In _ _ Hj)) as Hl.
    simpl in Hl. split; [lia|auto].
  - rewrite Hacc. eexists. split; [reflexivity|]. cbn [sent].
    split; [rewrite concat_app; simpl; now rewrite app_nil_r|].
    intros j batch Hj. rewrite length_app. simpl.
    destruct (Nat.lt_ge_cases j (List.length (sent pipe))) as [Hlt|Hge].
    + rewrite nth_error_app1 in Hj by exact Hlt.
      pose proof (proj1 (Forall_forall _ _) Hfull _ (nth_error_In _ _ Hj))
        as Hl. simpl in Hl. split; [lia|auto].
    + rewrite nth_error_app2 in Hj by exact Hge.
      destruct (j - List.length (sent pipe))%nat as [|k] eqn:Ej;
        [|destruct k; discriminate Hj].
      simpl in Hj. injection Hj as <-. split; [|lia].
      unfold len in *. simpl in *. lia.
Qed.

(** X6. A worker with a non-empty slice, at least as many metadata values
    as embeddings, a batch size of at least 1 and a server that acknowledges
    every batch: it reports the length of its slice; the batches it sent,
    put end to end, are the commands of the slice in the order of the slice;
    every batch has between 1 and insert_batch_size commands, and every
    batch but the last has exactly insert_batch_size. *)
Theorem insert_embedding_batch_pipelines (self : MemoryDB) (conn : Redis)
    (embeddings : list embedding) (metadata : list Z) :
  (1 <= insert_batch_size self)%Z ->
  (forall batch, execute_reply conn batch = None) ->
  embeddings <> [] ->
  (len embeddings <= len metadata)%Z ->
  let run := worker self conn embeddings metadata in
  outcome run = Ok (len embeddings) /\
  put run = len embeddings /\
  List.concat (wrote run) = records tobytes embeddings metadata /\
  (forall j batch,
      nth_error (wrote run) j = Some batch ->
      (1 <= len batch <= insert_batch_size self)%Z /\
      ((S j < List.length (wrote run))%nat ->
       len batch = insert_batch_size self)).
Proof.
  intros Hb Hacc Hne Hfit run. subst run.
  unfold insert_embedding_batch, batch_body, io_bind.
  destruct (@batch_loop_accepting _ _ tobytes execute_reply self conn
              metadata embeddings Hb Hacc 0%Z None
              {| command_stack := []; sent := [] |})
    as (p1 & Hrun & Hcat & Hfull & Hstack); try lia.
  - constructor.
  - reflexivity.
  - rewrite Hrun. simpl in Hcat.
    destruct (@pipe_execute_last self conn p1 _ Hb Hacc Hcat Hfull)
      as (p2 & Hexec & Hcat2 & Hbatches).
    { rewrite Hstack. apply Z.mod_pos_bound. lia. }
    rewrite Hexec.
    destruct embeddings as [|e rest]; [now elim Hne|].
    unfold io_ret. cbn [outcome put wrote].
    replace (0 + len (e :: rest) - 1 + 1)%Z with (len (e :: rest)) by lia.
    split; [reflexivity|]. split; [reflexivity|].
    split; [exact Hcat2|exact Hbatches].
Qed.

(** The loop gets through only if the metadata reach as far as the
    embeddings. *)
Lemma batch_loop_ok_metadata (self : MemoryDB) (conn : Redis)
    (metadata : list Z) (rest : list embedding) :
  forall i bound pipe b pipe',
    loop self conn metadata i rest bound pipe = (Ok b, pipe') ->
    (0 <= i)%Z ->
    rest = [] \/ (i + len rest <= len metadata)%Z.
Proof.
  induction rest as [|e rest IH]; intros i bound pipe b pipe' H Hi;
    [now left|right].
  cbn [batch_loop] in H. unfold io_bind, io_lift, pipe_hset, getitem in H.
  destruct (nth_error metadata (Z.to_nat i)) as [key|] eqn:Ek;
    [|discriminate].
  destruct (pymod (i + 1) (insert_batch_size self)) as [r|]; [|discriminate].
  match type of H with
  | context [(if ?c then _ else _) ?p] =>
      destruct ((if c then pipe_execute execute_reply conn else io_ret tt) p)
        as [[[]|] p1]
  end; [|discriminate].
  assert (Hlt : (i < len metadata)%Z).
  { assert (nth_error metadata (Z.to_nat i) <> None) as Hs by congruence.
    apply nth_error_Some in Hs. unfold len. lia. }
  assert (Hlen : len (e :: rest) = (len rest + 1)%Z)
    by (unfold len; simpl List.length; lia).
  destruct (IH _ _ _ _ _ H ltac:(lia)) as [->|Hfit].
  - change (len [e]) with 1%Z. lia.
  - lia.
Qed.

(** A worker with fewer metadata values than embeddings raises. *)
Lemma worker_short_metadata (self : MemoryDB) (conn : Redis)
    (embeddings : list embedding) (metadata : list Z) :
  (len metadata < len embeddings)%Z ->
  raised (worker self conn embeddings metadata) = true.
Proof.
  intros Hshort. unfold raised, insert_embedding_batch, batch_body, io_bind.
  destruct (loop self conn metadata 0 embeddings None _)
    as [[b|e] p1] eqn:E; [|reflexivity].
  apply batch_loop_ok_metadata in E; [|lia].
  destruct E as [->|Hfit]; [|lia].
  pose proof (len_nonneg metadata). change (len (@nil embedding)) with 0%Z in *.
  lia.
Qed.

(** X7. With a thread count of at least 1 and fewer metadata values than
    embeddings, insert_embeddings reports fewer records than there are
    embeddings, and no error. *)
Theorem insert_embeddings_short_metadata (self : MemoryDB)
    (embeddings : list embedding) (metadata : list Z) :
  (1 <= ingestion_thread_count self)%Z ->
  (len metadata < len embeddings)%Z ->
  (fst (insert self embeddings metadata) < len embeddings)%Z /\
  snd (insert self embeddings metadata) = None.
Proof.
  intros Htc Hshort.
  destruct (@insert_embeddings_workers _ _ tobytes execute_reply
              self embeddings metadata Htc)
    as (ep & mp & runs & He & Hm & Hr & Hlr & Hle & Hnth & Htot & Hbound & Heq).
  destruct (split_list_into_parts_props embeddings Htc)
    as (ep' & He' & _ & Hes & _).
  destruct (split_list_into_parts_props metadata Htc)
    as (mp' & Hm' & Hlm & Hms & _).
  assert (ep' = ep) by congruence. assert (mp' = mp) by congruence.
  subst ep' mp'. rewrite Htot. simpl. split; [|reflexivity].
  destruct (@exists_smaller (map len mp) (map len ep))
    as (i & a & b & Ha & Hb & Hab).
  { rewrite !length_map. unfold len in Hle, Hlm. lia. }
  { lia. }
  rewrite nth_error_map in Ha, Hb.
  destruct (nth_error mp i) as [md|] eqn:Emd; [|discriminate].
  destruct (nth_error ep i) as [e|] eqn:Ee; [|discriminate].
  simpl in Ha, Hb. injection Ha as <-. injection Hb as <-.
  destruct (nth_error runs i) as [r|] eqn:Er.
  2:{ apply nth_error_None in Er.
      assert (nth_error ep i <> None) as Hs by congruence.
      apply nth_error_Some in Hs. unfold len in Hlr, Hle. lia. }
  destruct (Hnth _ _ Er) as (e' & md' & He1 & Hm1 & Hrw).
  assert (e' = e) by congruence. assert (md' = md) by congruence.
  subst e' md'.
  assert (Hne : sumZ (map (@put _) runs) <> len embeddings).
  { intros Hfull'. pose proof (proj1 Heq Hfull') as Hfull. clear Hfull'.
    specialize (Hfull _ _ _ Er Ee).
    rewrite Hrw in Hfull.
    rewrite (worker_short_metadata _ _ _ _ Hab) in Hfull.
    specialize (Hfull eq_refl). subst e.
    pose proof (len_nonneg md). change (len (@nil embedding)) with 0%Z in Hab.
    lia. }
  lia.
Qed.
End WorkerFacts.

(** Five records in batches of two: the batches are of 2, 2 and 1. *)
Lemma insert_embedding_batch_pipelines_witness :
  map (@List.length _)
      (wrote (insert_embedding_batch as_bytes accepting
                (client standalone_config 1 2)
                {| conn_id := 0; connection_pool := None |}
                [[1]; [2]; [3]; [4]; [5]]%Z [7; 8; 9; 10; 11]%Z))
  = [2; 2; 1]%nat /\
  List.concat
    (wrote (insert_embedding_batch as_bytes accepting
              (client standalone_config 1 2)
              {| conn_id := 0; connection_pool := None |}
              [[1]; [2]; [3]; [4]; [5]]%Z [7; 8; 9; 10; 11]%Z))
  = records as_bytes [[1]; [2]; [3]; [4]; [5]]%Z [7; 8; 9; 10; 11]%Z.
Proof.
  split; [reflexivity|].
  apply (@insert_embedding_batch_pipelines _ _ as_bytes accepting
           (client standalone_config 1 2)
           {| conn_id := 0; connection_pool := None |}
           [[1]; [2]; [3]; [4]; [5]]%Z [7; 8; 9; 10; 11]%Z).
  - simpl. lia.
  - reflexivity.
  - discriminate.
  - unfold len. simpl. lia.
Defined.

(** Three embeddings and two metadata values for two threads. *)
Lemma insert_embeddings_short_metadata_witness :
  (fst (insert_embeddings as_bytes accepting (client standalone_config 2 1)
          [[1]; [2]; [3]]%Z [7; 8]%Z) < 3)%Z.
Proof.
  apply (@insert_embeddings_short_metadata _ _ as_bytes accepting
           (client standalone_config 2 1) [[1]; [2]; [3]]%Z [7; 8]%Z).
  - simpl. lia.
  - unfold len. simpl. lia.
Defined.

Lemma sumZ_zero (l : list Z) : Forall (fun x => x = 0%Z) l -> sumZ l = 0%Z.
Proof. induction 1; simpl; lia. Qed.

Section WorkerFailures.
Variables (embedding vector_bytes : Type).
Variable tobytes : embedding -> vector_bytes.
Variable execute_reply : Redis -> list (hset vector_bytes) -> option exn.

Local Abbreviation worker := (insert_embedding_batch tobytes execute_reply).
Local Abbreviation loop := (batch_loop tobytes execute_reply).
Local Abbreviation workers := (run_workers tobytes execute_reply).
Local Abbreviation insert := (insert_embeddings tobytes execute_reply).

(** With a batch size of 0 the first turn of the loop cannot get past the
    remainder, and an empty slice fails after the loop. *)
Lemma worker_zero_batch (self : MemoryDB) (conn : Redis)
    (embeddings : list embedding) (metadata : list Z) :
  insert_batch_size self = 0%Z ->
  raised (worker self conn embeddings metadata) = true /\
  wrote (worker self conn embeddings metadata) = [].
Proof.
  intros Hb. unfold raised, insert_embedding_batch, batch_body.
  destruct embeddings as [|e rest]; [split; reflexivity|].
  cbn [batch_loop].
  unfold io_bind, io_lift, pipe_hset, getitem, pymod. rewrite Hb.
  destruct (nth_error metadata (Z.to_nat 0)); split; reflexivity.
Qed.

(** X8. With insert_batch_size = 0, whatever the input, the thread count and
    the server: every worker raises, no batch is sent, and insert_embeddings
    reports 0 records. *)
Theorem insert_embeddings_zero_batch_size (self : MemoryDB)
    (embeddings : list embedding) (metadata : list Z) :
  insert_batch_size self = 0%Z ->
  fst (insert self embeddings metadata) = 0%Z /\
  (forall runs r,
      workers self embeddings metadata = Ok runs -> In r runs ->
      raised r = true /\ put r = 0%Z /\ wrote r = []).
Proof.
  intros Hb.
  assert (Hall : forall runs r,
             workers self embeddings metadata = Ok runs -> In r runs ->
             raised r = true /\ put r = 0%Z /\ wrote r = []).
  { intros runs r Hr Hin.
    destruct (@run_workers_In _ _ tobytes execute_reply _ _ _ _ _ Hr Hin)
      as (conn & e & md & ->).
    destruct (@worker_zero_batch self conn e md Hb) as (Hraised & Hw).
    split; [exact Hraised|]. split; [|exact Hw].
    unfold raised in Hraised.
    destruct (outcome (worker self conn e md)) as [n|x] eqn:Eo;
      [discriminate Hraised|].
    now apply worker_raise in Eo. }
  split; [|exact Hall].
  unfold insert_embeddings.
  destruct (workers self embeddings metadata) as [runs|e] eqn:Hr;
    [|reflexivity].
  rewrite drain_sumZ. simpl. apply sumZ_zero.
  apply Forall_map, Forall_forall. intros r Hin.
  now destruct (Hall runs r eq_refl Hin) as (_ & Hp & _).
Qed.

Lemma batch_loop_app (self : MemoryDB) (conn : Redis) (metadata : list Z)
    (l1 l2 : list embedding) :
  forall i bound pipe,
    loop self conn metadata i (l1 ++ l2) bound pipe
    = match loop self conn metadata i l1 bound pipe with
      | (Ok b1, p1) => loop self conn metadata (i + len l1) l2 b1 p1
      | (Raise e, p1) => (Raise e, p1)
      end.
Proof.
  induction l1 as [|e l1 IH]; intros i bound pipe.
  - simpl. change (len (@nil embedding)) with 0%Z. now rewrite Z.add_0_r.
  - assert (Hlen : (i + len (e :: l1) = i + 1 + len l1)%Z)
      by (unfold len; simpl List.length; lia).
    rewrite Hlen. cbn [app batch_loop].
    unfold io_bind, io_lift, pipe_hset.
    destruct (getitem metadata i) as [key|]; [|reflexivity].
    destruct (pymod (i + 1) (insert_batch_size self)) as [r|]; [|reflexivity].
    match goal with
    | |- context [(if ?c then _ else _) ?p] =>
        destruct ((if c then pipe_execute execute_reply conn else io_ret tt) p)
          as [[[]|] p1]
    end; [|reflexivity].
    apply IH.
Qed.

(** X9. A worker with fewer metadata values than embeddings, a batch size b
    of at least 1 and a server that acknowledges every batch: it raises
    IndexError and reports 0, although the server has acknowledged the first
    b * (len(metadata) // b) commands of the slice. *)
Theorem insert_embedding_batch_partial_write (self : MemoryDB) (conn : Redis)
    (embeddings : list embedding) (metadata : list Z) :
  (1 <= insert_batch_size self)%Z ->
  (forall batch, execute_reply conn batch = None) ->
  (len metadata < len embeddings)%Z ->
  let run := worker self conn embeddings metadata in
  outcome run = Raise IndexError /\
  put run = 0%Z /\
  List.concat (wrote run)
  = firstn (Z.to_nat (insert_batch_size self
                      * (len metadata / insert_batch_size self)))
           (records tobytes embeddings metadata).
Proof.
  intros Hb Hacc Hshort run. subst run.
  set (k := List.length metadata).
  assert (Hk : len (firstn k embeddings) = len metadata).
  { unfold len in *. rewrite length_firstn. fold k. lia. }
  destruct (skipn k embeddings) as [|e' rest'] eqn:Eskip.
  { apply (f_equal (@List.length _)) in Eskip. rewrite length_skipn in Eskip.
    unfold len in Hshort. fold k in Hshort. simpl in Eskip. lia. }
  unfold insert_embedding_batch, batch_body, io_bind.
  rewrite <- (firstn_skipn k embeddings) at 1 2 3.
  rewrite batch_loop_app.
  destruct (@batch_loop_accepting _ _ tobytes execute_reply self conn
              metadata (firstn k embeddings) Hb Hacc 0%Z None
              {| command_stack := []; sent := [] |})
    as (p1 & Hrun & Hcat & Hfull & Hstack); try lia.
  - constructor.
  - reflexivity.
  - rewrite Hrun, Eskip. cbn [batch_loop].
    unfold io_bind, io_lift, getitem. rewrite Hk.
    replace (Z.to_nat (0 + len metadata)) with k by (unfold len, k; lia).
    rewrite (proj2 (nth_error_None metadata k)) by (unfold k; lia).
    cbn [outcome put wrote]. split; [reflexivity|]. split; [reflexivity|].
    simpl in Hcat.
    assert (Hrec : records tobytes (firstn k embeddings) metadata
                   = records tobytes embeddings metadata).
    { unfold records, k. now rewrite <- combine_firstn_r. }
    rewrite Hrec in Hcat.
    rewrite (firstn_concat_app _ _ Hcat) at 1. f_equal.
    apply (f_equal (@List.length _)) in Hcat.
    rewrite length_app in Hcat. unfold records in Hcat.
    rewrite length_map, length_combine in Hcat.
    unfold len in Hstack, Hk, Hshort. rewrite Hk in Hstack. fold k in Hshort.
    fold k in Hstack. simpl in Hstack.
    rewrite Nat.min_r in Hcat by lia. fold k in Hcat.
    pose proof (Z.div_mod (Z.of_nat k) (insert_batch_size self) ltac:(lia)).
    unfold len. fold k. lia.
Qed.
End WorkerFailures.

Lemma insert_embeddings_zero_batch_size_witness :
  fst (insert_embeddings as_bytes accepting (client standalone_config 2 0)
         [[1]; [2]; [3]]%Z [7; 8; 9]%Z) = 0%Z.
Proof.
  apply (@insert_embeddings_zero_batch_size _ _ as_bytes accepting
           (client standalone_config 2 0) [[1]; [2]; [3]]%Z [7; 8; 9]%Z).
  reflexivity.
Defined.

(** Five embeddings, three metadata values, batches of two: one batch of two
    commands is acknowledged, and the worker reports 0. *)
Lemma insert_embedding_batch_partial_write_witness :
  let run := insert_embedding_batch as_bytes accepting
               (client standalone_config 1 2)
               {| conn_id := 0; connection_pool := None |}
               [[1]; [2]; [3]; [4]; [5]]%Z [7; 8; 9]%Z in
  outcome run = Raise IndexError /\
  put run = 0%Z /\
  List.concat (wrote run)
  = [hset_of as_bytes [1]%Z 7; hset_of as_bytes [2]%Z 8].
Proof.
  apply (@insert_embedding_batch_partial_write _ _ as_bytes accepting
           (client standalone_config 1 2)
           {| conn_id := 0; connection_pool := None |}
           [[1]; [2]; [3]; [4]; [5]]%Z [7; 8; 9]%Z).
  - simpl. lia.
  - reflexivity.
  - unfold len. simpl. lia.
Defined.

(** ** The query builder *)

Lemma for_each_Forall2 {X Y} (f : X -> result Y) (l : list X) :
  forall ys, for_each f l = Ok ys <-> Forall2 (fun x y => f x = Ok y) l ys.
Proof.
  induction l as [|x l IH]; intros ys; simpl.
  - split.
    + intros H. inversion H. constructor.
    + intros H. inversion H. reflexivity.
  - split.
    + destruct (f x) as [y|] eqn:Ef; [|discriminate]. simpl.
      destruct (for_each f l) as [ys0|] eqn:El; [|discriminate]. simpl.
      intros H. inversion H; subst. constructor; [exact Ef|].
      now apply IH.
    + intros H. inversion H as [|? y ? ys0 Hy Hrest]; subst.
      rewrite Hy. simpl. rewrite (proj2 (IH ys0) Hrest). reflexivity.
Qed.

(** X10. With no filter, and with an empty filter dictionary alike, the
    query is the KNN clause over all documents, "*=>[KNN k @vector $vec ...]",
    paged from 0 for k results. *)
Theorem search_query_unfiltered (self : MemoryDB) (k : Z)
    (filters : option (dict pyval)) :
  filters = None \/ filters = Some [] ->
  exists query_obj,
    search_query self k filters = Ok query_obj /\
    query_string query_obj
    = ("*=>[KNN " ++ str k ++ " @vector $vec " ++ ef_runtime_str self ++ "]")%string /\
    query_string query_obj
    = hybrid_query AllDocuments
        {| knn_k := k; knn_field := "vector"; knn_param := "vec";
           knn_attributes := ef_runtime_str self |} /\
    paging_offset query_obj = 0%Z /\
    paging_num query_obj = k.
Proof.
  intros [-> | ->]; unfold search_query; cbn [bind];
    (eexists; split; [reflexivity|]);
    destruct (no_content self); repeat split; reflexivity.
Qed.

Lemma search_query_unfiltered_witness :
  exists query_obj,
    search_query (client standalone_config 2 1) 10 (Some []) = Ok query_obj /\
    query_string query_obj = "*=>[KNN 10 @vector $vec ]"%string.
Proof.
  destruct (@search_query_unfiltered (client standalone_config 2 1) 10
              (Some []) (or_intror eq_refl))
    as (q & Hq & Hs & _).
  exists q. split; [exact Hq|exact Hs].
Defined.

(** X11. Whatever the filter, a query that search_query builds is paged
    from 0 for k results; with no_content set it asks for no content and
    names no field, and otherwise it asks for the field "id" only. *)
Theorem search_query_content (self : MemoryDB) (k : Z)
    (filters : option (dict pyval)) (query_obj : Query) :
  search_query self k filters = Ok query_obj ->
  paging_offset query_obj = 0%Z /\
  paging_num query_obj = k /\
  with_no_content query_obj = no_content self /\
  return_fields query_obj = (if no_content self then [] else ["id"%string]).
Proof.
  unfold search_query. intros H.
  destruct filters as [[|p rest]|]; cbn [bind] in H.
  - injection H as <-. destruct (no_content self); repeat split; reflexivity.
  - destruct (from_third _) as [mv|]; [|discriminate H]. cbn [bind] in H.
    injection H as <-. destruct (no_content self); repeat split; reflexivity.
  - injection H as <-. destruct (no_content self); repeat split; reflexivity.
Qed.

Lemma search_query_content_witness :
  exists query_obj,
    search_query (client standalone_config 2 1) 10
                 (Some [("metadata", PyStr ">=5")]%string) = Ok query_obj /\
    with_no_content query_obj = false /\
    return_fields query_obj = ["id"%string].
Proof.
  eexists. split; [reflexivity|].
  destruct (@search_query_content (client standalone_config 2 1) 10
              (Some [("metadata", PyStr ">=5")]%string) _ eq_refl)
    as (_ & _ & Hc & Hf).
  split; [exact Hc|exact Hf].
Defined.

Section SearchEdges.
Variables (vector vector_bytes : Type).
Variable tobytes : vector -> vector_bytes.
Variable ft_search : string -> Query -> vector_bytes -> result (list Document).
Variable int : string -> result Z.

Local Abbreviation search := (search_embedding tobytes ft_search int).

(** X12. A non-empty filter dictionary that has no "metadata" entry, or
    whose "metadata" entry is None or an integer, makes search_query raise
    TypeError; search_embedding then raises it too, whatever the store would
    answer: no search is sent. *)
Theorem search_embedding_bad_filter (self : MemoryDB) (query : vector)
    (k : Z) (filters : dict pyval) :
  filters <> [] ->
  (dict_get filters "metadata" = None \/
   dict_get filters "metadata" = Some PyNone \/
   exists z, dict_get filters "metadata" = Some (PyInt z)) ->
  search_query self k (Some filters) = Raise TypeError /\
  (conn self <> None ->
   search self query k (Some filters) = Raise TypeError).
Proof.
  intros Hne Hbad.
  assert (Hq : search_query self k (Some filters) = Raise TypeError).
  { destruct filters as [|p rest]; [now elim Hne|].
    unfold search_query. cbv beta iota.
    destruct Hbad as [-> | [-> | (z & ->)]]; reflexivity. }
  split; [exact Hq|].
  intros Hconn. unfold search_embedding.
  destruct (conn self); [|now elim Hconn]. now rewrite Hq.
Qed.

(** X13. Once the client is initialised and the query is built: when the
    store answers with documents, search_embedding returns a list exactly
    when every document's id reads as an integer, and the list is then those
    integers, one per document in the store's order; when the store raises,
    search_embedding raises the same error. *)
Theorem search_embedding_decodes_in_order (self : MemoryDB) (query : vector)
    (k : Z) (filters : option (dict pyval)) (query_obj : Query) :
  conn self <> None ->
  search_query self k filters = Ok query_obj ->
  (forall docs,
      ft_search INDEX_NAME query_obj (tobytes query) = Ok docs ->
      forall ids,
        search self query k filters = Ok ids <->
        Forall2 (fun doc id => int (doc_id doc) = Ok id) docs ids) /\
  (forall e,
      ft_search INDEX_NAME query_obj (tobytes query) = Raise e ->
      search self query k filters = Raise e).
Proof.
  intros Hconn Hq. unfold search_embedding.
  destruct (conn self); [|now elim Hconn]. rewrite Hq. cbn [bind].
  split.
  - intros docs Hdocs ids. rewrite Hdocs. cbn [bind].
    apply for_each_Forall2.
  - intros e He. now rewrite He.
Qed.
End SearchEdges.

Lemma search_embedding_bad_filter_witness :
  search_embedding as_bytes two_documents decimal
    (client standalone_config 2 1) [1; 2]%Z 10
    (Some [("metadata", PyInt 5)]%string)
  = Raise TypeError.
Proof.
  apply (@search_embedding_bad_filter _ _ as_bytes two_documents decimal
           (client standalone_config 2 1) [1; 2]%Z 10
           [("metadata", PyInt 5)]%string).
  - discriminate.
  - right. right. exists 5%Z. reflexivity.
  - discriminate.
Defined.

Lemma search_embedding_decodes_in_order_witness :
  search_embedding as_bytes two_documents decimal
    (client standalone_config 2 1) [1; 2]%Z 10 None
  = Ok [12; 7]%Z.
Proof.
  destruct (@search_embedding_decodes_in_order _ _ as_bytes two_documents
              decimal (client standalone_config 2 1) [1; 2]%Z 10 None _
              ltac:(discriminate) eq_refl) as (H & _).
  apply (H _ eq_refl). repeat constructor.
Defined.

(** X14. After init, the query carries the attribute "EF_RUNTIME v" exactly
    when the configured ef_runtime v is truthy, which is exactly when
    make_index puts EF_RUNTIME = v into the parameters of the vector field;
    otherwise the query's KNN clause ends in a blank and the index
    definition has no EF_RUNTIME. *)
Theorem ef_runtime_in_query_and_index (self : MemoryDB) (k : Z)
    (vector_dimensions : Z) :
  let v := ef_runtime (search_param (case_config self)) in
  let vp := vector_parameters vector_dimensions
              (index_param (case_config (init self)))
              (search_param (case_config (init self))) in
  (exists query_obj,
      search_query (init self) k None = Ok query_obj /\
      query_string query_obj
      = ("*=>[KNN " ++ str k ++ " @vector $vec "
           ++ (if truthy v then "EF_RUNTIME " ++ format v else "")
           ++ "]")%string) /\
  dict_get vp "EF_RUNTIME" = (if truthy v then Some v else None) /\
  (ef_runtime_str (init self) = ""%string <->
   dict_has vp "EF_RUNTIME" = false).
Proof.
  intros v vp. subst v vp. cbn [init case_config].
  split; [|split].
  - unfold search_query. cbn [bind ef_runtime_str no_content init].
    eexists. split; [reflexivity|].
    destruct (no_content self); reflexivity.
  - unfold vector_parameters.
    destruct (truthy (m _)), (truthy (ef_construction _)),
      (truthy (ef_runtime _)); reflexivity.
  - unfold vector_parameters, dict_has. cbn [ef_runtime_str init]. cbv zeta.
    destruct (truthy (m _)), (truthy (ef_construction _));
      destruct (truthy (ef_runtime (search_param (case_config self))));
      simpl; split; intros H; try reflexivity; discriminate H.
Qed.

(** ** Index provisioning, again *)

Section SchemaEdges.
Variable server : Type.
Variable ft_info : string -> server -> result unit.
Variable ft_create :
  string -> list field -> IndexDefinition -> server -> result unit * server.

Local Abbreviation provision := (make_index ft_info ft_create).
Local Abbreviation provision_times := (make_index_times ft_info ft_create).

(** X15. make_index raises exactly when its existence probe fails and the
    create command fails as well, and then with the error of the create
    command: the error of the probe is never the one that surfaces. *)
Theorem make_index_raises_iff (self : MemoryDB) (vector_dimensions : Z)
    (c : connection server) (e : exn) :
  fst (provision self vector_dimensions c) = Raise e <->
  (exists e0, ft_info INDEX_NAME (srv c) = Raise e0) /\
  fst (ft_create INDEX_NAME (index_schema vector_dimensions self)
                 {| index_type := HASH |} (srv c)) = Raise e.
Proof.
  destruct (ft_info INDEX_NAME (srv c)) as [[]|e0] eqn:Ei.
  - rewrite (@make_index_found _ ft_info ft_create self vector_dimensions c Ei). simpl. split.
    + discriminate.
    + intros ((e0 & H0) & _). discriminate H0.
  - rewrite (@make_index_missing _ ft_info ft_create self vector_dimensions c e0 Ei). simpl. split.
    + intros H. split; [eauto|exact H].
    + intros (_ & H). exact H.
Qed.

(** Once the probe succeeds, further calls only probe. *)
Lemma make_index_times_found (self : MemoryDB) (vector_dimensions : Z)
    (n : nat) :
  forall c,
    ft_info INDEX_NAME (srv c) = Ok tt ->
    provision_times n self vector_dimensions c
    = (Ok tt, {| srv := srv c;
                 issued := issued c ++ repeat (FT_INFO INDEX_NAME) n |}).
Proof.
  induction n as [|n IH]; intros c Hok.
  - simpl. unfold io_ret. rewrite app_nil_r. now destruct c.
  - cbn [make_index_times]. unfold io_bind.
    rewrite make_index_found by exact Hok.
    rewrite IH by exact Hok. cbn [srv issued].
    now rewrite <- app_assoc.
Qed.

Lemma creations_probes (c : connection server) (s : server) (n : nat) :
  creations {| srv := s; issued := issued c ++ repeat (FT_INFO INDEX_NAME) n |}
  = creations c.
Proof.
  rewrite creations_app.
  assert (filter is_create (repeat (FT_INFO INDEX_NAME) n) = []) as ->.
  { induction n as [|n IH]; [reflexivity|exact IH]. }
  simpl. lia.
Qed.

Hypothesis created_is_found :
  forall index schema definition s s',
    ft_create index schema definition s = (Ok tt, s') ->
    ft_info index s' = Ok tt.

(** X16. On a store that keeps what it created, any number n >= 1 of calls
    of make_index in a row issues one create command when the first
    existence probe fails and none when it succeeds. *)
Theorem make_index_times_creates_once (self : MemoryDB)
    (vector_dimensions : Z) (n : nat) (c : connection server) :
  (1 <= n)%nat ->
  creations (snd (provision_times n self vector_dimensions c))
  = (creations c
     + (if is_ok (ft_info INDEX_NAME (srv c)) then 0 else 1))%nat.
Proof.
  intros Hn. destruct n as [|n]; [lia|].
  destruct (ft_info INDEX_NAME (srv c)) as [[]|e0] eqn:Ei.
  - rewrite make_index_times_found by exact Ei. cbn [snd].
    rewrite creations_probes. simpl. lia.
  - cbn [make_index_times]. unfold io_bind.
    destruct (provision self vector_dimensions c) as [[[]|e1] c1] eqn:E1.
    + pose proof (@make_index_provides _ ft_info ft_create created_is_found _ _ _ _ E1) as Hok.
      rewrite make_index_times_found by exact Hok. cbn [snd].
      rewrite creations_probes.
      rewrite (@make_index_missing _ ft_info ft_create self vector_dimensions c e0 Ei) in E1. inversion E1; subst.
      rewrite creations_app. simpl. lia.
    + cbn [snd].
      rewrite (@make_index_missing _ ft_info ft_create self vector_dimensions c e0 Ei) in E1. inversion E1; subst.
      rewrite creations_app. simpl. lia.
Qed.
End SchemaEdges.

(** An unreachable store: the probe's error is swallowed, the create
    command's error is the one raised. *)
Lemma make_index_raises_iff_witness :
  fst (make_index store_info store_create (client standalone_config 2 1) 128
         (fresh_connection unreachable_store))
  = Raise (ConnectionError "connection refused").
Proof.
  apply (make_index_raises_iff store_info store_create
           (client standalone_config 2 1) 128
           (fresh_connection unreachable_store)).
  split; [eexists; reflexivity|reflexivity].
Defined.

Lemma make_index_times_creates_once_witness :
  creations (snd (make_index_times store_info store_create 5
                    (client standalone_config 2 1) 128
                    (fresh_connection empty_store)))
  = 1%nat.
Proof.
  rewrite (@make_index_times_creates_once store store_info store_create
             store_created_is_found (client standalone_config 2 1) 128 5
             (fresh_connection empty_store)) by lia.
  reflexivity.
Defined.

(** ** Leaving the init block, and the clients *)

(** X17. After init, leaving the block without an exception raises
    AttributeError exactly in sharded mode, where there is no pool: nothing
    is closed then, not even the search connection. In standalone mode the
    pool and the search connection are closed, conn_pool is reset to None
    and conn stays set. *)
Theorem init_exit_sharded_raises (self : MemoryDB) :
  let entered := init self in
  (fst (fst (init_exit entered)) <> None <->
   topology (db_config self) = Sharded) /\
  (topology (db_config self) = Sharded ->
   init_exit entered
   = (Some (AttributeError "NoneType" "close"), entered, [])) /\
  (topology (db_config self) = Standalone ->
   fst (fst (init_exit entered)) = None /\
   snd (init_exit entered)
   = [ClosedPool {| pool_host := host (db_config self);
                    pool_port := port (db_config self); pool_db := 0 |};
      ClosedClient Standalone] /\
   conn_pool (snd (fst (init_exit entered))) = None /\
   conn (snd (fst (init_exit entered))) = Some Standalone).
Proof.
  intros entered. subst entered.
  unfold init_exit, init, get_client_pool, topology. cbn [conn_pool conn].
  destruct (cmd (db_config self)); simpl.
  - split; [split; [intros H; now elim H|discriminate]|].
    split; [discriminate|]. intros _. repeat split; reflexivity.
  - split; [split; [reflexivity|discriminate]|].
    split; [reflexivity|]. discriminate.
Qed.

Lemma init_exit_sharded_raises_witness :
  fst (fst (init_exit (client sharded_config 2 1)))
  = Some (AttributeError "NoneType" "close") /\
  snd (init_exit (client sharded_config 2 1)) = [].
Proof.
  destruct (init_exit_sharded_raises
              (new_MemoryDB sharded_config
                 (hnsw_case 2 1 (PyInt 16) (PyInt 200) PyNone)))
    as (_ & Hs & _).
  unfold client. rewrite (Hs eq_refl). split; reflexivity.
Defined.

Section GetClientFacts.
Variable discover : DbConfig -> result cluster_nodes.
Variable execute_command : client_object -> client_command -> option exn.

Local Abbreviation connect := (get_client discover execute_command).

(** X18. In cluster mode, when discovery and the commands succeed (and a
    primary exists if one is asked for): PING goes to all nodes; READONLY
    goes to the replicas exactly when there is at least one; with
    replicas set the result is the list of the replicas' connections with
    their hosts, in discovery order, whether or not primary is set too;
    otherwise it is the first primary's connection if primary is set, and
    the cluster client if not. In standalone mode the keyword arguments are
    ignored: one PING, and the client on database 0, never a list. *)
Theorem get_client_by_mode (config : DbConfig) (primary replicas : bool) :
  (forall nodes,
      cmd config = false ->
      discover config = Ok nodes ->
      (forall command,
          execute_command (RedisCluster_of config) command = None) ->
      (primary = true -> primaries nodes <> []) ->
      fst (connect config primary replicas)
      = Ok (if replicas
            then ReplicaList (map (fun c => (redis_connection c, node_host c))
                                  (replica_nodes nodes))
            else OneClient
                   (if primary
                    then match primaries nodes with
                         | p :: _ => redis_connection p
                         | [] => RedisCluster_of config
                         end
                    else RedisCluster_of config)) /\
      snd (connect config primary replicas)
      = PING ALL_NODES
        :: (match replica_nodes nodes with
            | [] => []
            | _ :: _ => [READONLY REPLICAS]
            end)) /\
  (cmd config = true ->
   execute_command (Redis_of config 0) (PING DEFAULT_NODE) = None ->
   connect config primary replicas
   = (Ok (OneClient (Redis_of config 0)), [PING DEFAULT_NODE])).
Proof.
  split.
  - intros nodes Hcmd Hd Hex Hp. unfold get_client.
    rewrite Hcmd, Hd. cbn [negb]. rewrite !Hex.
    assert (Hro : (if (len (replica_nodes nodes) >? 0)%Z
                   then [READONLY REPLICAS] else [])
                  = match replica_nodes nodes with
                    | [] => []
                    | _ :: _ => [READONLY REPLICAS]
                    end).
    { destruct (replica_nodes nodes); [reflexivity|].
      unfold len. simpl List.length.
      destruct (Z.gtb_spec (Z.of_nat (S (List.length l))) 0);
        [reflexivity|lia]. }
    rewrite Hro.
    assert (Hno : (if (len (replica_nodes nodes) >? 0)%Z
                   then @None exn else None) = None)
      by (destruct (len (replica_nodes nodes) >? 0)%Z; reflexivity).
    rewrite Hno.
    destruct primary.
    + destruct (primaries nodes) as [|p ps]; [now elim Hp|].
      unfold getitem. simpl. destruct replicas; split; reflexivity.
    + destruct replicas; split; reflexivity.
  - intros Hcmd Hex. unfold get_client. rewrite Hcmd. cbn [negb].
    now rewrite Hex.
Qed.
End GetClientFacts.

Lemma get_client_by_mode_witness :
  fst (get_client discovered answering sharded_config true true)
  = Ok (ReplicaList
          [(redis_connection {| node_host := "r0"; node_port := 6379 |}, "r0");
           (redis_connection {| node_host := "r1"; node_port := 6379 |}, "r1")]%string) /\
  get_client discovered answering standalone_config false true
  = (Ok (OneClient (Redis_of standalone_config 0)), [PING DEFAULT_NODE]).
Proof.
  split.
  - destruct (get_client_by_mode discovered answering sharded_config true true)
      as (Hc & _).
    destruct (Hc three_nodes eq_refl eq_refl (fun _ => eq_refl)
                 ltac:(discriminate)) as (Hr & _).
    exact Hr.
  - destruct (get_client_by_mode discovered answering standalone_config
                false true) as (_ & Hs).
    apply Hs; reflexivity.
Defined.

(** ** Waiting for the nodes *)

Section ConvergenceFacts.
Variables (world client : Type).
Variable dbsize : client -> world -> Z * world.
Variable indexing_status : client -> world -> string * world.
Variable flushall : client -> world -> world.
Variable sleep : Z -> world -> world.
Variable ft_info : client -> string -> world -> result unit.
Variable ft_create :
  client -> string -> list field -> IndexDefinition -> world
  -> result unit * world.
Variable primary : client.
Variable replica_clients : list (client * string).

Local Abbreviation each := (wait_each sleep).
Local Abbreviation idle := (wait_for_no_activity indexing_status).
Local Abbreviation post_insert :=
  (_post_insert indexing_status sleep primary replica_clients).
Local Abbreviation construct :=
  (__init__ dbsize flushall sleep ft_info ft_create primary replica_clients).

Lemma wait_each_returned (condition : client -> world -> bool * world)
    (fuel : nat) (interval : Z) (clients : list (client * string)) :
  forall w evs w',
    each condition fuel interval clients w = Some (evs, w') ->
    exists ns,
      List.length ns = List.length clients /\
      evs = waited_and_closed interval clients ns.
Proof.
  induction clients as [|[rc host] rest IH]; intros w evs w' H.
  - inversion H; subst. exists []. split; reflexivity.
  - cbn [wait_each] in H.
    destruct (wait_until condition sleep fuel interval rc w)
      as [[polled w1]|] eqn:Ew; [|discriminate].
    destruct (each condition fuel interval rest w1) as [[evs1 w2]|] eqn:Er;
      [|discriminate].
    inversion H; subst.
    destruct (wait_until_returned _ _ _ _ _ _ Ew) as (n & _ & -> & _).
    destruct (IH _ _ _ Er) as (ns & Hl & ->).
    exists (n :: ns). split; [simpl; lia|reflexivity].
Qed.

Lemma wait_each_blocked (condition : client -> world -> bool * world)
    (interval : Z) (clients : list (client * string)) (rc : client)
    (host : string) :
  In (rc, host) clients ->
  (forall w, fst (condition rc w) = false) ->
  forall fuel w, each condition fuel interval clients w = None.
Proof.
  intros Hin Hnever fuel.
  induction clients as [|[rc0 host0] rest IH]; intros w; [destruct Hin|].
  cbn [wait_each].
  destruct (wait_until condition sleep fuel interval rc0 w)
    as [[polled w1]|] eqn:Ew; [|reflexivity].
  destruct Hin as [Heq|Hin].
  - injection Heq as -> ->.
    rewrite wait_until_running in Ew; [discriminate|].
    intros k _. apply Hnever.
  - now rewrite (IH Hin).
Qed.

Lemma idle_false (c : client) :
  (forall w, fst (indexing_status c w) <> "NO_ACTIVITY"%string) ->
  forall w, fst (idle c w) = false.
Proof.
  intros H w. unfold wait_for_no_activity. specialize (H w).
  destruct (indexing_status c w) as [s w']. simpl in *.
  now apply String.eqb_neq.
Qed.

Lemma wait_each_iff (condition : client -> world -> bool * world)
    (fuel : nat) (interval : Z) (clients : list (client * string)) :
  forall w evs w',
    each condition fuel interval clients w = Some (evs, w') <->
    exists ns,
      Forall (fun n => (n < fuel)%nat) ns /\
      answered_in_turn sleep condition interval clients ns w w' /\
      evs = waited_and_closed interval clients ns.
Proof.
  induction clients as [|[rc host] rest IH]; intros w evs w'.
  - simpl. split.
    + intros H. inversion H; subst. exists []. repeat split. constructor.
    + intros (ns & _ & Hans & ->). destruct ns as [|n ns]; [|destruct Hans].
      simpl in Hans. subst. reflexivity.
  - cbn [wait_each]. split.
    + intros H.
      destruct (wait_until condition sleep fuel interval rc w)
        as [[polled w1]|] eqn:Ew; [|discriminate].
      destruct (each condition fuel interval rest w1) as [[evs1 w2]|] eqn:Er;
        [|discriminate].
      inversion H; subst.
      destruct (wait_until_returned _ _ _ _ _ _ Ew)
        as (n & Hn & -> & Ht & Hf & ->).
      destruct (proj1 (IH _ _ _) Er) as (ns & Hns & Hans & ->).
      exists (n :: ns). split; [constructor; assumption|].
      split; [|reflexivity]. simpl. auto.
    + intros (ns & Hns & Hans & ->).
      destruct ns as [|n ns]; [destruct Hans|].
      simpl in Hans. destruct Hans as (Ht & Hf & Hrest).
      inversion Hns as [|? ? Hn Hns']; subst.
      rewrite (@wait_until_returns _ _ condition sleep interval rc n w fuel Hf Ht Hn).
      pose proof (proj2 (IH _ _ _)
                    (ex_intro _ ns (conj Hns' (conj Hrest eq_refl)))) as Hr.
      rewrite Hr. reflexivity.
Qed.

Lemma idle_answer (interval : Z) (c : client) (w : world) (k : nat) :
  (answer_at idle sleep interval c w k = true <->
   reported indexing_status sleep interval c w k = "NO_ACTIVITY"%string) /\
  (answer_at idle sleep interval c w k = false <->
   reported indexing_status sleep interval c w k <> "NO_ACTIVITY"%string) /\
  snd (idle c (world_before idle sleep interval c w k))
  = snd (indexing_status c (world_before idle sleep interval c w k)).
Proof.
  unfold answer_at, reported, wait_for_no_activity.
  destruct (indexing_status c _) as [s w1]. simpl.
  split; [apply String.eqb_eq|]. split; [apply String.eqb_neq|reflexivity].
Qed.

Lemma idle_in_turn_answered (interval : Z) (clients : list (client * string)) :
  forall ns w w',
    answered_in_turn sleep idle interval clients ns w w' <->
    idle_in_turn indexing_status sleep interval clients ns w w'.
Proof.
  clear dbsize flushall ft_info ft_create primary replica_clients.
  induction clients as [|[rc host] rest IH]; intros [|n ns] w w';
    simpl; try tauto.
  destruct (idle_answer interval rc w n) as (Ht & _ & Hw).
  rewrite Ht, Hw, IH.
  assert (Hf : (forall k, (k < n)%nat -> answer_at idle sleep interval rc w k = false)
               <-> (forall k, (k < n)%nat ->
                    reported indexing_status sleep interval rc w k
                    <> "NO_ACTIVITY"%string)).
  { split; intros H k Hk; apply (idle_answer interval rc w k); auto. }
  rewrite Hf. tauto.
Qed.

(** X19. _post_insert returns exactly when the primary and, in sharded mode
    only, every replica in the order of the list report NO_ACTIVITY one
    after the other: each node is polled from where the wait for the node
    before it ended, with a sleep of 5 seconds between two polls, until the
    first poll at which it reports NO_ACTIVITY; each replica is closed after
    its wait. The events are these waits in this order, and the final world
    is the one after the last node's last poll. In standalone mode only the
    primary is polled. *)
Theorem post_insert_waits_in_order (fuel : nat) (self : MemoryDB) (w : world)
    (evs : list (admin_event client)) (w' : world) :
  let nodes :=
    if negb (cmd (db_config self)) then replica_clients else [] in
  post_insert fuel self w = Some (evs, w') <->
  exists n0 ns,
    (n0 < fuel)%nat /\
    Forall (fun n => (n < fuel)%nat) ns /\
    idle_in_turn indexing_status sleep 5
                 ((primary, ""%string) :: nodes) (n0 :: ns) w w' /\
    evs = Waited primary (polls 5 n0) :: waited_and_closed 5 nodes ns.
Proof.
  clear dbsize flushall ft_info ft_create.
  intros nodes. subst nodes. unfold _post_insert. split.
  - intros H.
    destruct (wait_until idle sleep fuel 5 primary w) as [[polled w1]|] eqn:Ew;
      [|discriminate].
    destruct (wait_until_returned _ _ _ _ _ _ Ew)
      as (n0 & Hn0 & -> & Ht & Hf & ->).
    destruct (negb (cmd (db_config self))).
    + destruct (each idle fuel 5 replica_clients _) as [[evs1 w2]|] eqn:Er;
        [|discriminate].
      inversion H; subst.
      destruct (proj1 (wait_each_iff _ _ _ _ _ _ _) Er)
        as (ns & Hns & Hans & ->).
      exists n0, ns. split; [exact Hn0|]. split; [exact Hns|].
      split; [|reflexivity].
      apply idle_in_turn_answered. simpl. auto.
    + inversion H; subst. exists n0, []. split; [exact Hn0|].
      split; [constructor|]. split; [|reflexivity].
      apply idle_in_turn_answered. simpl. auto.
  - intros (n0 & ns & Hn0 & Hns & Hidle & ->).
    apply idle_in_turn_answered in Hidle. simpl in Hidle.
    destruct Hidle as (Ht & Hf & Hrest).
    rewrite (@wait_until_returns _ _ idle sleep 5%Z primary n0 w fuel Hf Ht Hn0).
    destruct (negb (cmd (db_config self))).
    + pose proof (proj2 (wait_each_iff idle fuel 5 replica_clients _ _ _)
                    (ex_intro _ ns (conj Hns (conj Hrest eq_refl)))) as Hr.
      rewrite Hr. reflexivity.
    + destruct ns as [|n ns]; [|destruct Hrest].
      simpl in Hrest. subst w'. reflexivity.
Qed.

(** X20. _post_insert never returns when the primary never reports
    NO_ACTIVITY, nor, in sharded mode, when some replica never does: there
    is no bound on the polls and no timeout. *)
Theorem post_insert_blocks (self : MemoryDB) :
  (forall w, fst (indexing_status primary w) <> "NO_ACTIVITY"%string) \/
  (cmd (db_config self) = false /\
   exists rc host,
     In (rc, host) replica_clients /\
     forall w, fst (indexing_status rc w) <> "NO_ACTIVITY"%string) ->
  forall fuel w, post_insert fuel self w = None.
Proof.
  intros H fuel w. unfold _post_insert.
  destruct H as [Hp|(Hcmd & rc & host & Hin & Hr)].
  - rewrite wait_until_running; [reflexivity|].
    intros k _. apply idle_false. exact Hp.
  - destruct (wait_until idle sleep fuel 5 primary w) as [[polled w1]|];
      [|reflexivity].
    rewrite Hcmd. cbn [negb].
    rewrite (wait_each_blocked idle 5 _ _ _ Hin (idle_false _ Hr)).
    reflexivity.
Qed.

Lemma wait_each_no_flush (condition : client -> world -> bool * world)
    (fuel : nat) (interval : Z) (clients : list (client * string)) w evs w' c :
  each condition fuel interval clients w = Some (evs, w') ->
  ~ In (FLUSHALL c) evs.
Proof.
  intros H. destruct (wait_each_returned _ _ _ _ _ H) as (ns & _ & ->).
  unfold waited_and_closed. rewrite in_flat_map.
  intros (p & _ & [Hp|[Hp|[]]]); discriminate Hp.
Qed.

(** X21. With drop_old set, an existence probe that fails with anything but
    a ResponseError ends __init__ with that error: nothing is flushed and no
    index is created. make_index on the same connection would have issued
    the create command. *)
Theorem init_probe_error_propagates (fuel : nat) (self : MemoryDB) (dim : Z)
    (c : connection world) (e : exn) :
  ft_info primary INDEX_NAME (srv c) = Raise e ->
  (forall msg, e <> ResponseError msg) ->
  construct fuel self dim true c
  = Some (Raise e,
          {| srv := srv c; issued := issued c ++ [FT_INFO INDEX_NAME] |},
          []) /\
  issued (snd (make_index (ft_info primary) (ft_create primary) self dim c))
  = issued c
    ++ [FT_INFO INDEX_NAME;
        FT_CREATE INDEX_NAME (index_schema dim self) {| index_type := HASH |}].
Proof.
  intros He Hnr. split.
  - unfold __init__, drop_old_block, info. rewrite He.
    destruct e; try reflexivity. now elim (Hnr msg).
  - now rewrite (@make_index_missing _ (ft_info primary) (ft_create primary)
                   self dim c e He).
Qed.

(** X22. When __init__ returns, FLUSHALL was sent to the primary exactly
    when drop_old was set and the existence probe either succeeded or failed
    with a ResponseError: a store without the index is flushed all the
    same. *)
Theorem init_flushes_iff (fuel : nat) (self : MemoryDB) (dim : Z)
    (drop_old : bool) (c : connection world) r c'
    (evs : list (admin_event client)) :
  construct fuel self dim drop_old c = Some (r, c', evs) ->
  In (FLUSHALL primary) evs <->
  drop_old = true /\
  (ft_info primary INDEX_NAME (srv c) = Ok tt \/
   exists msg, ft_info primary INDEX_NAME (srv c) = Raise (ResponseError msg)).
Proof.
  clear indexing_status.
  unfold __init__. intros H.
  assert (Hclose : forall l : list (admin_event client),
             In (FLUSHALL primary) (l ++ [Closed primary]) <->
             In (FLUSHALL primary) l).
  { intros l. rewrite in_app_iff. simpl. split; [|tauto].
    intros [Hl|[Hc|[]]]; [exact Hl|discriminate Hc]. }
  destruct drop_old.
  - assert (Hblock : forall r1 c1 evs1,
               drop_old_block dbsize flushall sleep ft_info primary
                              replica_clients fuel self c
               = Some (r1, c1, evs1) ->
               In (FLUSHALL primary) evs1 <->
               (ft_info primary INDEX_NAME (srv c) = Ok tt \/
                exists msg,
                  ft_info primary INDEX_NAME (srv c)
                  = Raise (ResponseError msg))).
    { intros r1 c1 evs1. unfold drop_old_block, info.
      assert (Hfw : forall c0 : connection world,
                 match
                   wait_until (wait_for_empty_db dbsize) sleep fuel 3 primary
                              (flushall primary (srv c0))
                 with
                 | Some (polled, w2) =>
                     if negb (cmd (db_config self))
                     then
                       match
                         each (wait_for_empty_db dbsize) fuel 3
                              replica_clients w2
                       with
                       | Some (evs0, w3) =>
                           Some (Ok tt, {| srv := w3; issued := issued c0 |},
                                 FLUSHALL primary
                                 :: Waited primary polled :: evs0)
                       | None => None
                       end
                     else
                       Some (Ok tt, {| srv := w2; issued := issued c0 |},
                             [FLUSHALL primary; Waited primary polled])
                 | None => None
                 end = Some (r1, c1, evs1) ->
                 In (FLUSHALL primary) evs1).
      { intros c0 Hf.
        destruct (wait_until _ _ _ _ _ _) as [[polled w2]|]; [|discriminate].
        destruct (negb (cmd (db_config self))).
        - destruct (each _ _ _ _ _) as [[evs0 w3]|]; [|discriminate].
          inversion Hf; subst. now left.
        - inversion Hf; subst. now left. }
      destruct (ft_info primary INDEX_NAME (srv c)) as [[]|e] eqn:Ei.
      - intros Hf. split; [intros _; now left|intros _; exact (Hfw _ Hf)].
      - destruct e as [| | | | | |msg|msg];
          try (intros Hf; inversion Hf; subst; split;
               [intros []|intros [Hx|(m0 & Hx)]; discriminate Hx]).
        intros Hf. split; [intros _; right; eauto|intros _; exact (Hfw _ Hf)]. }
    destruct (drop_old_block _ _ _ _ _ _ _ _ _) as [[[r1 c1] evs1]|] eqn:Eb;
      [|discriminate].
    specialize (Hblock _ _ _ eq_refl).
    destruct r1 as [[]|e1].
    + destruct (make_index _ _ _ _ _) as [[[]|e2] c2]; inversion H; subst.
      * rewrite Hclose. rewrite Hblock. tauto.
      * rewrite Hblock. tauto.
    + inversion H; subst. rewrite Hblock. tauto.
  - destruct (make_index _ _ _ _ _) as [[[]|e2] c2]; inversion H; subst;
      simpl; split; try tauto; try (intros [Hx _]; discriminate Hx).
    intros [Hx|[]]. discriminate Hx.
Qed.

Hypothesis created_is_found :
  forall index schema definition s s',
    ft_create primary index schema definition s = (Ok tt, s') ->
    ft_info primary index s' = Ok tt.

(** X23. On a store that keeps what it created: when __init__ returns
    without an error, the index exists on the primary, and closing the
    connection to the primary was the last thing done. *)
Theorem init_provides_index (fuel : nat) (self : MemoryDB) (dim : Z)
    (drop_old : bool) (c c' : connection world)
    (evs : list (admin_event client)) :
  construct fuel self dim drop_old c = Some (Ok tt, c', evs) ->
  ft_info primary INDEX_NAME (srv c') = Ok tt /\
  exists before, evs = before ++ [Closed primary].
Proof.
  unfold __init__. intros H.
  destruct (if drop_old then _ else _) as [[[r1 c1] evs1]|]; [|discriminate].
  destruct r1 as [[]|e1]; [|discriminate].
  destruct (make_index _ _ _ _ _) as [[[]|e2] c2] eqn:Em; [|discriminate].
  inversion H; subst. split; [|eauto].
  exact (@make_index_provides _ (ft_info primary) (ft_create primary)
           created_is_found _ _ _ _ Em).
Qed.
End ConvergenceFacts.

(** A primary that is idle at once and two replicas idle from times 3 and
    6, polled every 5 seconds from time 0. *)
Lemma post_insert_waits_in_order_witness :
  _post_insert status_at clock_sleep 0%nat two_replicas 10
               (client sharded_config 2 1) 0%Z
  = Some ([Waited 0%nat [Evaluated true];
           Waited 1%nat [Evaluated false; Slept 5; Evaluated true];
           Closed 1%nat;
           Waited 2%nat [Evaluated false; Slept 5; Evaluated true];
           Closed 2%nat],
          10%Z).
Proof.
  apply (@post_insert_waits_in_order Z nat status_at clock_sleep 0%nat
           two_replicas 10 (client sharded_config 2 1) 0%Z).
  exists 0%nat, [1; 1]%nat.
  split; [lia|]. split; [repeat constructor; lia|].
  split; [|reflexivity].
  simpl. split; [reflexivity|]. split; [intros k Hk; lia|].
  split; [reflexivity|]. split.
  { intros k Hk. assert (k = 0%nat) as -> by lia. intros H. discriminate H. }
  split; [reflexivity|]. split.
  { intros k Hk. assert (k = 0%nat) as -> by lia. intros H. discriminate H. }
  reflexivity.
Defined.

Lemma post_insert_blocks_witness :
  _post_insert busy_forever clock_sleep 0%nat two_replicas 1000
               (client standalone_config 2 1) 0%Z
  = None.
Proof.
  apply (@post_insert_blocks Z nat busy_forever clock_sleep 0%nat two_replicas
           (client standalone_config 2 1)).
  left. intros w H. discriminate H.
Defined.

Lemma init_probe_error_propagates_witness :
  __init__ keys_left flushed clock_sleep clock_refused clock_create
           0%nat two_replicas 10 (client sharded_config 2 1) 128 true
           {| srv := 0%Z; issued := [] |}
  = Some (Raise (ConnectionError "connection refused"),
          {| srv := 0%Z; issued := [FT_INFO INDEX_NAME] |}, []).
Proof.
  apply (@init_probe_error_propagates Z nat keys_left flushed clock_sleep
           clock_refused clock_create 0%nat two_replicas 10
           (client sharded_config 2 1) 128 {| srv := 0%Z; issued := [] |}
           (ConnectionError "connection refused")).
  - reflexivity.
  - intros msg H. discriminate H.
Defined.

(** A store without the index (the probe fails with a ResponseError) and
    drop_old set: the primary is flushed. *)
Lemma init_flushes_iff_witness :
  exists r c' evs,
    __init__ keys_left flushed clock_sleep clock_info clock_create
             0%nat two_replicas 10 (client sharded_config 2 1) 128 true
             {| srv := 0%Z; issued := [] |}
    = Some (r, c', evs) /\
    In (FLUSHALL 0%nat) evs.
Proof.
  eexists. eexists. eexists. split; [reflexivity|].
  apply (@init_flushes_iff Z nat keys_left flushed clock_sleep clock_info
           clock_create 0%nat two_replicas 10 (client sharded_config 2 1) 128
           true {| srv := 0%Z; issued := [] |} _ _ _ eq_refl).
  split; [reflexivity|]. right. eexists. reflexivity.
Defined.

Lemma clock_created_is_found :
  forall index schema definition s s',
    clock_create 0%nat index schema definition s = (Ok tt, s') ->
    clock_info 0%nat index s' = Ok tt.
Proof.
  intros index schema definition s s' H. unfold clock_create in H.
  injection H as <-. unfold clock_info.
  destruct (Z.leb_spec 100 (Z.max s 100)); [reflexivity|lia].
Qed.

Lemma init_provides_index_witness :
  exists c' evs,
    __init__ keys_left flushed clock_sleep clock_info clock_create
             0%nat two_replicas 10 (client sharded_config 2 1) 128 true
             {| srv := 0%Z; issued := [] |}
    = Some (Ok tt, c', evs) /\
    clock_info 0%nat INDEX_NAME (srv c') = Ok tt.
Proof.
  eexists. eexists. split; [reflexivity|].
  apply (@init_provides_index Z nat keys_left flushed clock_sleep clock_info
           clock_create 0%nat two_replicas clock_created_is_found 10
           (client sharded_config 2 1) 128 true
           {| srv := 0%Z; issued := [] |} _ _ eq_refl).
Defined.
